(** * CreativEase context detection: classifier and capture pipeline

    A shallow embedding of [src/electron/ContextHelper.ts] and
    [src/electron/PermissionsHelper.ts].

    - JavaScript strings are sequences of UTF-16 code units: [jsstring].
    - [String.prototype.toLowerCase] is a Unicode table of the engine; the
      development is parametric in it and every fact that needs one of its
      properties states that property as a hypothesis.  [ascii_toLowerCase]
      is the instance used to run the model: it is what the engine computes on
      text whose code units are all below 128.
    - The confidence is the IEEE quotient [matches / patterns.length] with
      [matches <= patterns.length <= 6].  It is represented by the reduced
      fraction: correctly rounded division is monotone and maps equal
      fractions to equal doubles, and two different fractions with
      denominators at most 6 are at least 1/30 apart, so [>] and [===] on the
      doubles agree with [<] and [=] on the reduced fractions.
    - The asynchronous methods are sequential chains of [await]s.  They are
      modelled in a monad of state and exceptions in which the state survives
      a [throw], as it does in JavaScript.  Calls to [console.log] and
      [console.error] are left out. *)

From Stdlib Require Import String Ascii Bool Arith NArith ZArith QArith Qreduction Lia List.
Import ListNotations.
Close Scope Q_scope.

(** ** Strings *)

Definition code_unit := N.
Definition jsstring := list code_unit.

(** An ASCII source literal. *)
Definition js (s : string) : jsstring :=
  List.map N_of_ascii (list_ascii_of_string s).

Fixpoint jsstring_eqb (a b : jsstring) : bool :=
  match a, b with
  | [], [] => true
  | x :: a', y :: b' => N.eqb x y && jsstring_eqb a' b'
  | _, _ => false
  end.

(** [s.startsWith(p)] *)
Fixpoint startsWith (s p : jsstring) {struct p} : bool :=
  match p with
  | [] => true
  | c :: p' =>
      match s with
      | [] => false
      | d :: s' => N.eqb c d && startsWith s' p'
      end
  end.

(** [s.includes(p)]: [p] starts at some position of [s]. *)
Fixpoint includes (s p : jsstring) : bool :=
  startsWith s p ||
  match s with
  | [] => false
  | _ :: s' => includes s' p
  end.

(** [s.slice(b, e)] for [0 <= b] and [0 <= e]. *)
Definition slice (s : jsstring) (b e : nat) : jsstring :=
  skipn b (firstn e s).

(** [p] occurs in [s] as a substring. *)
Definition Substring (p s : jsstring) : Prop :=
  exists a b, s = a ++ p ++ b.

(** [l] lists some of the entries of [m], in the order of [m]. *)
Inductive InOrderOf {A : Type} : list A -> list A -> Prop :=
| InOrderOf_nil : forall m, InOrderOf [] m
| InOrderOf_keep : forall x l m, InOrderOf l m -> InOrderOf (x :: l) (x :: m)
| InOrderOf_skip : forall x l m, InOrderOf l m -> InOrderOf l (x :: m).

(** The restriction of [toLowerCase] to ASCII text. *)
Definition ascii_lower_unit (u : code_unit) : code_unit :=
  if (N.leb 65 u && N.leb u 90)%bool then (u + 32)%N else u.

Definition ascii_toLowerCase (s : jsstring) : jsstring :=
  List.map ascii_lower_unit s.

(** A code unit that [toLowerCase] leaves alone wherever it stands: an ASCII
    character other than an upper-case letter. *)
Definition uncased_ascii (u : code_unit) : bool :=
  (N.ltb u 128 && negb (N.leb 65 u && N.leb u 90))%bool.

(** [lower] keeps every occurrence of a pattern made of such code units.
    [toLowerCase] maps code point by code point (only the image of a capital
    sigma depends on its neighbours), so it has this property. *)
Definition keeps_uncased_ascii (lower : jsstring -> jsstring) : Prop :=
  forall p s, forallb uncased_ascii p = true ->
              Substring p s -> Substring p (lower s).

(** ** Numbers *)

(** [a / b] for counters [a <= b] with [0 < b]. *)
Definition js_div (a b : nat) : Q :=
  Qred (Z.of_nat a # Pos.of_nat b)%Q.

(** [x > y] *)
Definition js_gt (x y : Q) : bool := negb (Qle_bool x y).

(** ** ContextHelper.ts: the classifier *)

Record Signature := { name : jsstring; patterns : list jsstring }.

Module Detection.
Record t := { software : jsstring; confidence : Q }.
End Detection.

Record ContextData := {
  software : jsstring;
  confidence : Q;
  panels : list jsstring;
  text_content : jsstring;
  screenshot_path : jsstring;
  ui_elements : list jsstring
}.

Definition premierePro : Signature :=
  {| name := js "Adobe Premiere Pro";
     patterns := List.map js ["premiere"; "timeline"; "lumetri"; "essential graphics"; "sequence"]%string |}.
Definition daVinciResolve : Signature :=
  {| name := js "DaVinci Resolve";
     patterns := List.map js ["davinci"; "resolve"; "color"; "fusion"; "fairlight"; "deliver"]%string |}.
Definition photoshop : Signature :=
  {| name := js "Adobe Photoshop";
     patterns := List.map js ["photoshop"; "layers"; "brush"; "filter"; "adjustment"]%string |}.
Definition afterEffects : Signature :=
  {| name := js "Adobe After Effects";
     patterns := List.map js ["after effects"; "composition"; "timeline"; "effects"; "precomp"]%string |}.
Definition illustrator : Signature :=
  {| name := js "Adobe Illustrator";
     patterns := List.map js ["illustrator"; "artboard"; "pen tool"; "pathfinder"; "stroke"]%string |}.
Definition finalCutPro : Signature :=
  {| name := js "Final Cut Pro";
     patterns := List.map js ["final cut"; "event"; "project"; "blade"; "magnetic timeline"]%string |}.
Definition lightroom : Signature :=
  {| name := js "Adobe Lightroom";
     patterns := List.map js ["lightroom"; "develop"; "library"; "histogram"; "tone curve"]%string |}.
Definition logicPro : Signature :=
  {| name := js "Logic Pro";
     patterns := List.map js ["logic pro"; "track area"; "mixer"; "library"; "score editor"]%string |}.

(** The catalogue, in its declared order. *)
Definition softwarePatterns : list Signature :=
  [ premierePro; daVinciResolve; photoshop; afterEffects;
    illustrator; finalCutPro; lightroom; logicPro ].

Definition uiPatterns : list jsstring :=
  List.map js
    [ "timeline"; "inspector"; "browser"; "viewer"; "canvas"; "toolbar"; "panel"; "window";
      "program monitor"; "source monitor"; "project panel"; "effect controls"; "lumetri color";
      "essential graphics"; "essential sound"; "sequence"; "media browser";
      "media pool"; "timeline viewer"; "inspector panel"; "color wheels"; "nodes"; "gallery";
      "scopes"; "mixer"; "fairlight"; "fusion page"; "edit page"; "color page";
      "layers panel"; "properties panel"; "history panel"; "brush panel"; "color panel";
      "channels"; "paths"; "adjustment layers"; "filter gallery";
      "composition panel"; "project panel"; "timeline panel"; "effect controls panel";
      "character panel"; "paragraph panel"; "align panel"; "tracker panel";
      "play"; "pause"; "stop"; "record"; "zoom"; "scale"; "rotate"; "position";
      "opacity"; "blend mode"; "mask"; "keyframe"; "transition"; "effect" ]%string.

Definition panelPatterns : list jsstring :=
  List.map js
    [ "project panel"; "timeline panel"; "program monitor"; "source monitor";
      "effect controls"; "lumetri color"; "essential graphics"; "essential sound";
      "media pool"; "inspector"; "color wheels"; "scopes"; "mixer";
      "layers panel"; "properties panel"; "history panel"; "tools panel";
      "color panel"; "swatches panel"; "brush panel"; "character panel" ]%string.

(** The inner loop of [detectCreativeSoftware]: [matches++] for every pattern
    the text includes. *)
Definition countMatches (lowerText : jsstring) (pats : list jsstring) : nat :=
  fold_left (fun matches pattern =>
               if includes lowerText pattern then S matches else matches)
            pats 0.

(** [matches / sw.patterns.length] *)
Definition score (lowerText : jsstring) (sw : Signature) : Q :=
  js_div (countMatches lowerText (patterns sw)) (length (patterns sw)).

(** One turn of the outer loop. *)
Definition considerSignature (lowerText : jsstring)
    (bestMatch : Detection.t) (sw : Signature) : Detection.t :=
  let confidence := score lowerText sw in
  if js_gt confidence (Detection.confidence bestMatch)
  then {| Detection.software := name sw; Detection.confidence := confidence |}
  else bestMatch.

(** [{ software: sw.name, confidence }] *)
Definition wonBy (lowerText : jsstring) (sw : Signature) : Detection.t :=
  {| Detection.software := name sw;
     Detection.confidence := score lowerText sw |}.

(** The number of keyword patterns of [sw] that occur in the text. *)
Definition matchedKeywords (lowerText : jsstring) (sw : Signature) : nat :=
  length (filter (includes lowerText) (patterns sw)).

(** [sw] is the first entry of the catalogue whose score is the highest. *)
Definition firstHighest (lowerText : jsstring) (catalogue : list Signature)
    (sw : Signature) : Prop :=
  exists earlier later : list Signature,
    catalogue = earlier ++ sw :: later /\
    (forall x, In x earlier -> (score lowerText x < score lowerText sw)%Q) /\
    (forall x, In x later -> (score lowerText x <= score lowerText sw)%Q).

Definition unknownMatch : Detection.t :=
  {| Detection.software := js "Unknown"; Detection.confidence := 0%Q |}.

(** The loops that [push] every included entry. *)
Definition collectIncluded (lowerText : jsstring) (catalogue : list jsstring)
  : list jsstring :=
  fold_left (fun found entry =>
               if includes lowerText entry then found ++ [entry] else found)
            catalogue [].

(** [[...new Set(xs)]]: a [Set] keeps the first insertion of every value and
    iterates in insertion order. *)
Fixpoint setInsertAll (seen xs : list jsstring) : list jsstring :=
  match xs with
  | [] => seen
  | x :: xs' =>
      if existsb (jsstring_eqb x) seen then setInsertAll seen xs'
      else setInsertAll (seen ++ [x]) xs'
  end.

Definition spreadSet (xs : list jsstring) : list jsstring := setInsertAll [] xs.

Section Classifier.
Variable toLowerCase : jsstring -> jsstring.

Definition detectCreativeSoftware (text : jsstring) : Detection.t :=
  let lowerText := toLowerCase text in
  fold_left (considerSignature lowerText) softwarePatterns unknownMatch.

Definition extractUIElements (text : jsstring) : list jsstring :=
  let lowerText := toLowerCase text in
  spreadSet (collectIncluded lowerText uiPatterns).

Definition extractPanels (text : jsstring) : list jsstring :=
  let lowerText := toLowerCase text in
  collectIncluded lowerText panelPatterns.
End Classifier.

(** ** The world outside the two classes *)

(** A thrown value. *)
Definition error := jsstring.

(** A tesseract worker object. *)
Definition worker := nat.

Inductive outcome (A : Type) : Type :=
| Returned (a : A)
| Thrown (e : error).

Arguments Returned {A} a.
Arguments Thrown {A} e.

(** The calls that leave the two classes, as they are recorded. *)
Inductive call : Type :=
| GetMediaAccessStatus (mediaType : jsstring)
| ScreenshotDesktop (filename : jsstring)
| UnlinkSync (path : jsstring)
| TakeScreenshot
| CreateWorker
| LoadLanguage (w : worker) (lang : jsstring)
| Initialize (w : worker) (lang : jsstring)
| Recognize (w : worker) (image : jsstring).

(** What the platform, the file system, the screenshot helper and the OCR
    engine answer.  Every answer may depend on the calls made so far, so the
    permission state may change between two queries. *)
Record Environment := {
  platform : jsstring;
  answer_getMediaAccessStatus : list call -> jsstring -> outcome jsstring;
  answer_screenshot : list call -> jsstring -> outcome unit;
  answer_unlinkSync : list call -> jsstring -> outcome unit;
  answer_takeScreenshot : list call -> outcome jsstring;
  answer_createWorker : list call -> outcome worker;
  answer_loadLanguage : list call -> worker -> jsstring -> outcome unit;
  answer_initialize : list call -> worker -> jsstring -> outcome unit;
  answer_recognize : list call -> worker -> jsstring -> outcome jsstring
}.

(** The field [ocrWorker] of the [ContextHelper] and the calls made so far. *)
Record State := { ocrWorker : option worker; history : list call }.

Definition record_call (c : call) (st : State) : State :=
  {| ocrWorker := ocrWorker st; history := history st ++ [c] |}.

(** ** State and exceptions *)

Definition M (A : Type) : Type := State -> outcome A * State.

Definition ret {A : Type} (a : A) : M A := fun st => (Returned a, st).

Definition bind {A B : Type} (m : M A) (k : A -> M B) : M B :=
  fun st =>
    match m st with
    | (Returned a, st') => k a st'
    | (Thrown e, st') => (Thrown e, st')
    end.

(** [try { body } catch (e) { handler }] *)
Definition try_catch {A : Type} (body : M A) (handler : error -> M A) : M A :=
  fun st =>
    match body st with
    | (Returned a, st') => (Returned a, st')
    | (Thrown e, st') => handler e st'
    end.

(** An outside call: it is recorded, and the environment answers. *)
Definition perform {A : Type} (c : call) (answer : list call -> outcome A) : M A :=
  fun st => (answer (history st), record_call c st).

Definition read_ocrWorker : M (option worker) :=
  fun st => (Returned (ocrWorker st), st).

Definition write_ocrWorker (w : option worker) : M unit :=
  fun st => (Returned tt, {| ocrWorker := w; history := history st |}).

Declare Scope js_scope.
Delimit Scope js_scope with js_m.
Notation "x <- m ;; k" := (bind m (fun x => k))
  (at level 61, m at next level, right associativity) : js_scope.
Notation "m ;; k" := (bind m (fun _ => k))
  (at level 61, right associativity) : js_scope.
Open Scope js_scope.

Section Calls.
Variable env : Environment.

(** [process.platform === 'darwin'] *)
Definition isDarwin : bool := jsstring_eqb (platform env) (js "darwin").

Definition getMediaAccessStatus (mediaType : jsstring) : M jsstring :=
  perform (GetMediaAccessStatus mediaType)
          (fun h => answer_getMediaAccessStatus env h mediaType).

Definition screenshot (filename : jsstring) : M unit :=
  perform (ScreenshotDesktop filename) (fun h => answer_screenshot env h filename).

Definition unlinkSync (path : jsstring) : M unit :=
  perform (UnlinkSync path) (fun h => answer_unlinkSync env h path).

Definition takeScreenshot : M jsstring :=
  perform TakeScreenshot (answer_takeScreenshot env).

Definition createWorker : M worker :=
  perform CreateWorker (answer_createWorker env).

Definition loadLanguage (w : worker) (lang : jsstring) : M unit :=
  perform (LoadLanguage w lang) (fun h => answer_loadLanguage env h w lang).

Definition initialize (w : worker) (lang : jsstring) : M unit :=
  perform (Initialize w lang) (fun h => answer_initialize env h w lang).

(** [const { data: { text } } = await worker.recognize(image)] *)
Definition recognize (w : worker) (image : jsstring) : M jsstring :=
  perform (Recognize w image) (fun h => answer_recognize env h w image).
End Calls.

(** ** PermissionsHelper.ts *)

Definition permissionTestFile : jsstring := js "/tmp/permission-test.png".

(** The three calls of the permission helper. *)
Abbreviation queryStatus := (GetMediaAccessStatus (js "screen")).
Abbreviation probeCapture := (ScreenshotDesktop permissionTestFile).
Abbreviation probeDelete := (UnlinkSync permissionTestFile).

Module PermissionsHelper.
Section WithEnvironment.
Variable env : Environment.

Definition checkScreenCapturePermission : M bool :=
  if negb (isDarwin env) then ret true
  else
    try_catch
      (status <- getMediaAccessStatus env (js "screen") ;;
       ret (jsstring_eqb status (js "granted")))
      (fun _ => ret false).

(** The two [require] calls load modules that are present; they are not
    modelled as calls. *)
Definition handlePermissionForContextCapture : M bool :=
  hasPermission <- checkScreenCapturePermission ;;
  if negb hasPermission && isDarwin env then
    try_catch
      (screenshot env permissionTestFile ;;
       try_catch (unlinkSync env permissionTestFile) (fun _ => ret tt) ;;
       checkScreenCapturePermission)
      (fun _ => ret false)
  else ret hasPermission.
End WithEnvironment.
End PermissionsHelper.

(** The second text of the class that the file holds: the same check, and a
    [handlePermissionForContextCapture] that only logs. *)
Module PermissionsHelperSecondCopy.
Section WithEnvironment.
Variable env : Environment.

Definition checkScreenCapturePermission : M bool :=
  PermissionsHelper.checkScreenCapturePermission env.

(** The conditional of this copy holds two [console.log] calls only. *)
Definition handlePermissionForContextCapture : M bool :=
  hasPermission <- checkScreenCapturePermission ;;
  ret hasPermission.
End WithEnvironment.
End PermissionsHelperSecondCopy.

(** ** ContextHelper.ts: the pipeline *)

(** U+2192, the arrow of the explanatory text. *)
Definition rightwards_arrow : code_unit := 8594%N.

Definition permissionRequired : ContextData :=
  {| software := js "Permission Required";
     confidence := 0%Q;
     panels := [];
     text_content :=
       js "Screen recording permission needed for context detection. Please enable in System Preferences "
       ++ [rightwards_arrow] ++ js " Privacy & Security "
       ++ [rightwards_arrow] ++ js " Screen Recording.";
     screenshot_path := [];
     ui_elements := [] |}.

Definition unknownContext : ContextData :=
  {| software := js "Unknown";
     confidence := 0%Q;
     panels := [];
     text_content := [];
     screenshot_path := [];
     ui_elements := [] |}.

Section ContextHelper.
Variable toLowerCase : jsstring -> jsstring.
Variable env : Environment.
(** The imported [PermissionsHelper.handlePermissionForContextCapture]. *)
Variable handlePermission : M bool.

Definition initializeOCR : M unit :=
  current <- read_ocrWorker ;;
  match current with
  | Some _ => ret tt
  | None =>
      w <- createWorker env ;;
      write_ocrWorker (Some w) ;;
      loadLanguage env w (js "eng") ;;
      initialize env w (js "eng")
  end.

(** [this.ocrWorker.recognize(image)]; a call on [null] throws. *)
Definition ocrWorker_recognize (image : jsstring) : M jsstring :=
  current <- read_ocrWorker ;;
  match current with
  | Some w => recognize env w image
  | None => fun st => (Thrown (js "TypeError"), st)
  end.

(** Lines 161 to 173: the analysis of the recognised text. *)
Definition analyze (text screenshotPath : jsstring) : ContextData :=
  let softwareDetection := detectCreativeSoftware toLowerCase text in
  let panels := extractPanels toLowerCase text in
  let uiElements := extractUIElements toLowerCase text in
  {| software := Detection.software softwareDetection;
     confidence := Detection.confidence softwareDetection;
     panels := panels;
     text_content := slice text 0 500;
     screenshot_path := screenshotPath;
     ui_elements := uiElements |}.

(** Lines 144 to 182: from the screenshot to the result. *)
Definition captureAndAnalyze : M ContextData :=
  screenshotPath <- takeScreenshot env ;;
  initializeOCR ;;
  text <- ocrWorker_recognize screenshotPath ;;
  ret (analyze text screenshotPath).

Definition captureAndAnalyzeContextWith : M ContextData :=
  try_catch
    (hasPermission <- handlePermission ;;
     if negb hasPermission && isDarwin env then ret permissionRequired
     else captureAndAnalyze)
    (fun _ => ret unknownContext).
End ContextHelper.

Definition captureAndAnalyzeContext (toLowerCase : jsstring -> jsstring)
    (env : Environment) : M ContextData :=
  captureAndAnalyzeContextWith toLowerCase env
    (PermissionsHelper.handlePermissionForContextCapture env).

(** ** Notions used in the statements *)

(** The invariants of a [ContextData] record. *)
Definition wellFormed (r : ContextData) : Prop :=
  (0 <= confidence r <= 1)%Q /\
  NoDup (panels r) /\
  NoDup (ui_elements r) /\
  length (text_content r) <= 500.

(** The calls that the permission helper makes. *)
Definition permission_call (c : call) : Prop :=
  match c with
  | GetMediaAccessStatus _ | ScreenshotDesktop _ | UnlinkSync _ => True
  | _ => False
  end.

(** The permission gate of [captureAndAnalyzeContext] lets the run go on. *)
Definition gateOpen (env : Environment) (hasPermission : bool) : Prop :=
  negb hasPermission && isDarwin env = false.

(** The answer to the permission query after the calls [h] is 'granted'. *)
Definition statusGranted (env : Environment) (h : list call) : bool :=
  match answer_getMediaAccessStatus env h (js "screen") with
  | Returned status => jsstring_eqb status (js "granted")
  | Thrown _ => false
  end.

(** ** Sample environments *)

Definition idle : State := {| ocrWorker := None; history := [] |}.

Definition sampleText : jsstring :=
  js "Adobe PREMIERE Pro - Timeline: Sequence 01 | Lumetri Color | Project Panel".

Definition longText : jsstring := js "Timeline " ++ repeat 88%N 600.

(** macOS, permission granted, everything works. *)
Definition macGranted : Environment :=
  {| platform := js "darwin";
     answer_getMediaAccessStatus := fun _ _ => Returned (js "granted");
     answer_screenshot := fun _ _ => Returned tt;
     answer_unlinkSync := fun _ _ => Returned tt;
     answer_takeScreenshot := fun _ => Returned (js "/tmp/screenshot.png");
     answer_createWorker := fun _ => Returned 1;
     answer_loadLanguage := fun _ _ _ => Returned tt;
     answer_initialize := fun _ _ _ => Returned tt;
     answer_recognize := fun _ _ _ => Returned sampleText |}.

(** The same, with a screen full of text. *)
Definition macLongText : Environment :=
  {| platform := js "darwin";
     answer_getMediaAccessStatus := fun _ _ => Returned (js "granted");
     answer_screenshot := fun _ _ => Returned tt;
     answer_unlinkSync := fun _ _ => Returned tt;
     answer_takeScreenshot := fun _ => Returned (js "/tmp/screenshot.png");
     answer_createWorker := fun _ => Returned 1;
     answer_loadLanguage := fun _ _ _ => Returned tt;
     answer_initialize := fun _ _ _ => Returned tt;
     answer_recognize := fun _ _ _ => Returned longText |}.

(** macOS, permission denied; the probe capture goes through and the
    permission stays denied. *)
Definition macDenied : Environment :=
  {| platform := js "darwin";
     answer_getMediaAccessStatus := fun _ _ => Returned (js "denied");
     answer_screenshot := fun _ _ => Returned tt;
     answer_unlinkSync := fun _ _ => Returned tt;
     answer_takeScreenshot := fun _ => Returned (js "/tmp/screenshot.png");
     answer_createWorker := fun _ => Returned 1;
     answer_loadLanguage := fun _ _ _ => Returned tt;
     answer_initialize := fun _ _ _ => Returned tt;
     answer_recognize := fun _ _ _ => Returned sampleText |}.

Definition probed (h : list call) : bool :=
  existsb (fun c => match c with ScreenshotDesktop _ => true | _ => false end) h.

(** macOS, permission granted by the user once the probe capture has run;
    the probe file cannot be deleted. *)
Definition macGrantedOnPrompt : Environment :=
  {| platform := js "darwin";
     answer_getMediaAccessStatus :=
       fun h _ => Returned (if probed h then js "granted" else js "not-determined");
     answer_screenshot := fun _ _ => Returned tt;
     answer_unlinkSync := fun _ _ => Thrown (js "ENOENT");
     answer_takeScreenshot := fun _ => Returned (js "/tmp/screenshot.png");
     answer_createWorker := fun _ => Returned 1;
     answer_loadLanguage := fun _ _ _ => Returned tt;
     answer_initialize := fun _ _ _ => Returned tt;
     answer_recognize := fun _ _ _ => Returned sampleText |}.

(** macOS, permission granted, recognition fails. *)
Definition macRecognitionFails : Environment :=
  {| platform := js "darwin";
     answer_getMediaAccessStatus := fun _ _ => Returned (js "granted");
     answer_screenshot := fun _ _ => Returned tt;
     answer_unlinkSync := fun _ _ => Returned tt;
     answer_takeScreenshot := fun _ => Returned (js "/tmp/screenshot.png");
     answer_createWorker := fun _ => Returned 1;
     answer_loadLanguage := fun _ _ _ => Returned tt;
     answer_initialize := fun _ _ _ => Returned tt;
     answer_recognize := fun _ _ _ => Thrown (js "recognize failed") |}.

(** ** The other methods of the two classes, and the caller *)

(** [this.ocrWorker.terminate()] and [shell.openExternal(url)].  Each is
    answered by the environment from the calls recorded so far; neither
    belongs to the capture pipeline and neither is entered in its record. *)
Definition terminate (answer_terminate : list call -> worker -> outcome unit)
    (w : worker) : M unit :=
  fun st => (answer_terminate (history st) w, st).

Definition openExternal (answer_openExternal : list call -> jsstring -> outcome unit)
    (url : jsstring) : M unit :=
  fun st => (answer_openExternal (history st) url, st).

(** [ContextHelper.cleanup] *)
Definition cleanup (answer_terminate : list call -> worker -> outcome unit) : M unit :=
  current <- read_ocrWorker ;;
  match current with
  | Some w => terminate answer_terminate w ;; write_ocrWorker None
  | None => ret tt
  end.

Definition screenCaptureSettings : jsstring :=
  js "x-apple.systempreferences:com.apple.preference.security?Privacy_ScreenCapture".

Definition securitySettings : jsstring :=
  js "x-apple.systempreferences:com.apple.preference.security".

(** [PermissionsHelper.openScreenRecordingSettings] *)
Definition openScreenRecordingSettings
    (answer_openExternal : list call -> jsstring -> outcome unit) : M unit :=
  try_catch (openExternal answer_openExternal screenCaptureSettings)
            (fun _ => openExternal answer_openExternal securitySettings).

(** ipcHandlers.ts, the handler of "capture-context": the context helper of
    the application state is a [ContextHelper]; the handler logs what it
    catches and throws it again. *)
Definition captureContextHandler (toLowerCase : jsstring -> jsstring)
    (env : Environment) : M ContextData :=
  try_catch (captureAndAnalyzeContext toLowerCase env)
            (fun error st => (Thrown error, st)).

(** The two calls that prepare a worker. *)
Abbreviation loadEnglish w := (LoadLanguage w (js "eng")).
Abbreviation initializeEnglish w := (Initialize w (js "eng")).

(** The calls of [initializeOCR]. *)
Definition ocr_setup_call (c : call) : Prop :=
  match c with
  | CreateWorker | LoadLanguage _ _ | Initialize _ _ => True
  | _ => False
  end.

(** The characters of a string, as the specification counts them: its code
    points.  A high surrogate followed by a low surrogate is one character;
    any other code unit is a character by itself. *)
Definition isHighSurrogate (u : code_unit) : bool :=
  (N.leb 55296 u && N.leb u 56319)%bool.

Definition isLowSurrogate (u : code_unit) : bool :=
  (N.leb 56320 u && N.leb u 57343)%bool.

Fixpoint characters (s : jsstring) : nat :=
  match s with
  | [] => 0
  | u :: s' =>
      match s' with
      | v :: s'' =>
          if (isHighSurrogate u && isLowSurrogate v)%bool
          then S (characters s'')
          else S (characters s')
      | [] => 1
      end
  end.

(** U+1F600, as its two code units. *)
Definition grinningFace : jsstring := [55357%N; 56832%N].

(** The letter a and 300 faces: 301 characters in 601 code units. *)
Definition facesText : jsstring := js "a" ++ concat (repeat grinningFace 300).

(** More sample environments. *)

(** macOS, permission granted; the screen shows [facesText]. *)
Definition macFaces : Environment :=
  {| platform := js "darwin";
     answer_getMediaAccessStatus := fun _ _ => Returned (js "granted");
     answer_screenshot := fun _ _ => Returned tt;
     answer_unlinkSync := fun _ _ => Returned tt;
     answer_takeScreenshot := fun _ => Returned (js "/tmp/screenshot.png");
     answer_createWorker := fun _ => Returned 1;
     answer_loadLanguage := fun _ _ _ => Returned tt;
     answer_initialize := fun _ _ _ => Returned tt;
     answer_recognize := fun _ _ _ => Returned facesText |}.

(** macOS, permission granted; the language model cannot be loaded. *)
Definition macLanguageLoadFails : Environment :=
  {| platform := js "darwin";
     answer_getMediaAccessStatus := fun _ _ => Returned (js "granted");
     answer_screenshot := fun _ _ => Returned tt;
     answer_unlinkSync := fun _ _ => Returned tt;
     answer_takeScreenshot := fun _ => Returned (js "/tmp/screenshot.png");
     answer_createWorker := fun _ => Returned 1;
     answer_loadLanguage := fun _ _ _ => Thrown (js "network error");
     answer_initialize := fun _ _ _ => Returned tt;
     answer_recognize := fun _ _ _ => Returned sampleText |}.

(** Linux: the status query would throw, were it made. *)
Definition linuxBox : Environment :=
  {| platform := js "linux";
     answer_getMediaAccessStatus := fun _ _ => Thrown (js "unsupported");
     answer_screenshot := fun _ _ => Thrown (js "unsupported");
     answer_unlinkSync := fun _ _ => Returned tt;
     answer_takeScreenshot := fun _ => Returned (js "/tmp/screenshot.png");
     answer_createWorker := fun _ => Returned 1;
     answer_loadLanguage := fun _ _ _ => Returned tt;
     answer_initialize := fun _ _ _ => Returned tt;
     answer_recognize := fun _ _ _ => Returned sampleText |}.

Definition terminateWorks : list call -> worker -> outcome unit :=
  fun _ _ => Returned tt.

Definition terminateFails : list call -> worker -> outcome unit :=
  fun _ _ => Thrown (js "worker is gone").

(** No URL can be opened. *)
Definition nothingOpens : list call -> jsstring -> outcome unit :=
  fun _ url => Thrown (js "no handler for " ++ url).

(** The state of a helper after one full run on [macGranted]. *)
Definition afterOneRun : State :=
  {| ocrWorker := Some 1;
     history := [queryStatus; TakeScreenshot; CreateWorker;
                 LoadLanguage 1 (js "eng"); Initialize 1 (js "eng");
                 Recognize 1 (js "/tmp/screenshot.png")] |}.

(** ** Facts about strings *)

Lemma startsWith_spec (p s : jsstring) :
  startsWith s p = true <-> exists b, s = p ++ b.
Proof.
  revert s. induction p as [|c p IH]; intros s; simpl.
  - split; [intros _; now exists s | reflexivity].
  - destruct s as [|d s].
    + split; [discriminate | intros [b Hb]; discriminate].
    + rewrite andb_true_iff, N.eqb_eq, IH. split.
      * intros [-> [b ->]]. now exists b.
      * intros [b Hb]. injection Hb as -> ->. split; [reflexivity | now exists b].
Qed.

Lemma includes_spec (s p : jsstring) :
  includes s p = true <-> Substring p s.
Proof.
  unfold Substring. induction s as [|d s IH]; simpl.
  - rewrite orb_false_r, startsWith_spec. split.
    + intros [b Hb]. now exists [], b.
    + intros [a [b Hab]]. symmetry in Hab.
      apply app_eq_nil in Hab as [-> Hpb]. exists b. now rewrite Hpb.
  - rewrite orb_true_iff, startsWith_spec, IH. split.
    + intros [[b Hb] | [a [b Hab]]].
      * now exists [], b.
      * exists (d :: a), b. now rewrite Hab.
    + intros [[|x a] [b Hab]].
      * left. now exists b.
      * right. injection Hab as _ ->. now exists a, b.
Qed.

Lemma includes_nil_false (p : jsstring) : p <> [] -> includes [] p = false.
Proof. destruct p; [congruence | reflexivity]. Qed.

Lemma Substring_trans (p q s : jsstring) :
  Substring p q -> Substring q s -> Substring p s.
Proof.
  intros [a [b ->]] [c [d ->]]. exists (c ++ a), (b ++ d).
  now rewrite <- !app_assoc.
Qed.

Lemma jsstring_eqb_eq (a b : jsstring) : jsstring_eqb a b = true <-> a = b.
Proof.
  revert b. induction a as [|x a IH]; intros [|y b]; simpl;
    try (split; [discriminate | congruence]); [tauto|].
  rewrite andb_true_iff, N.eqb_eq, IH. split.
  - now intros [-> ->].
  - intros H. now injection H.
Qed.

Lemma ascii_lower_unit_fixes (u : code_unit) :
  uncased_ascii u = true -> ascii_lower_unit u = u.
Proof.
  unfold uncased_ascii, ascii_lower_unit.
  destruct (N.leb 65 u && N.leb u 90)%bool; [|reflexivity].
  now rewrite andb_false_r.
Qed.

Lemma ascii_toLowerCase_keeps : keeps_uncased_ascii ascii_toLowerCase.
Proof.
  intros p s Hp [a [b ->]]. unfold ascii_toLowerCase.
  exists (map ascii_lower_unit a), (map ascii_lower_unit b).
  rewrite !map_app. do 2 f_equal.
  induction p as [|u p IH]; [reflexivity|].
  simpl in Hp. apply andb_true_iff in Hp as [Hu Hp].
  simpl. now rewrite (ascii_lower_unit_fixes _ Hu), IH.
Qed.

(** ** Facts about the score *)

Lemma js_gt_spec (x y : Q) : js_gt x y = true <-> (y < x)%Q.
Proof.
  unfold js_gt. rewrite negb_true_iff. split.
  - intros H. apply Qnot_le_lt. intros Hle.
    apply Qle_bool_iff in Hle. congruence.
  - intros H. destruct (Qle_bool x y) eqn:E; [|reflexivity].
    apply Qle_bool_iff in E. exfalso. exact (Qlt_not_le _ _ H E).
Qed.

Lemma Zpos_of_nat (b : nat) : 0 < b -> Zpos (Pos.of_nat b) = Z.of_nat b.
Proof.
  intros Hb. rewrite <- positive_nat_Z, Nat2Pos.id by lia. reflexivity.
Qed.

Lemma js_div_eq (a b : nat) : (js_div a b == Z.of_nat a # Pos.of_nat b)%Q.
Proof. apply Qred_correct. Qed.

Lemma js_div_zero (b : nat) : js_div 0 b = 0%Q.
Proof.
  unfold js_div. change 0%Q with (Qred 0). apply Qred_complete. reflexivity.
Qed.

Lemma js_div_full (b : nat) : 0 < b -> js_div b b = 1%Q.
Proof.
  intros Hb. unfold js_div. change 1%Q with (Qred 1). apply Qred_complete.
  unfold Qeq. simpl. rewrite (Zpos_of_nat b Hb). lia.
Qed.

Lemma js_div_bounds (a b : nat) : a <= b -> (0 <= js_div a b <= 1)%Q.
Proof.
  intros Hab. rewrite js_div_eq. unfold Qle. simpl. split; [lia|].
  destruct b as [|b].
  - assert (a = 0) as -> by lia. simpl. lia.
  - rewrite Zpos_of_nat by lia. lia.
Qed.

Lemma js_div_pos (a b : nat) : 0 < a -> (0 < js_div a b)%Q.
Proof.
  intros Ha. rewrite js_div_eq. unfold Qlt. simpl. lia.
Qed.

Lemma js_div_quotient (a b : nat) :
  0 < b ->
  (js_div a b == inject_Z (Z.of_nat a) / inject_Z (Z.of_nat b))%Q.
Proof.
  intros Hb. rewrite js_div_eq, Qmake_Qdiv, (Zpos_of_nat b Hb). reflexivity.
Qed.

Lemma countMatches_from (lowerText : jsstring) (pats : list jsstring) (n : nat) :
  fold_left (fun matches pattern =>
               if includes lowerText pattern then S matches else matches)
            pats n
  = n + length (filter (includes lowerText) pats).
Proof.
  revert n. induction pats as [|p pats IH]; intros n; simpl; [lia|].
  rewrite IH. destruct (includes lowerText p); simpl; lia.
Qed.

Lemma countMatches_filter (lowerText : jsstring) (pats : list jsstring) :
  countMatches lowerText pats = length (filter (includes lowerText) pats).
Proof. unfold countMatches. now rewrite countMatches_from. Qed.

Lemma countMatches_le (lowerText : jsstring) (pats : list jsstring) :
  countMatches lowerText pats <= length pats.
Proof. rewrite countMatches_filter. apply filter_length_le. Qed.

Lemma countMatches_none (lowerText : jsstring) (pats : list jsstring) :
  (forall p, In p pats -> includes lowerText p = false) ->
  countMatches lowerText pats = 0.
Proof.
  intros H. rewrite countMatches_filter.
  induction pats as [|p pats IH]; [reflexivity|]. simpl.
  rewrite (H p (or_introl eq_refl)). apply IH.
  intros q Hq. apply H. now right.
Qed.

Lemma countMatches_all (lowerText : jsstring) (pats : list jsstring) :
  (forall p, In p pats -> includes lowerText p = true) ->
  countMatches lowerText pats = length pats.
Proof.
  intros H. rewrite countMatches_filter.
  induction pats as [|p pats IH]; [reflexivity|]. simpl.
  rewrite (H p (or_introl eq_refl)). simpl. f_equal. apply IH.
  intros q Hq. apply H. now right.
Qed.

Lemma score_bounds (lowerText : jsstring) (sw : Signature) :
  (0 <= score lowerText sw <= 1)%Q.
Proof. apply js_div_bounds, countMatches_le. Qed.

(** ** The outer loop of [detectCreativeSoftware], over any catalogue *)

Section BestMatch.
Variable lowerText : jsstring.

Lemma considerSignature_eq (best : Detection.t) (x : Signature) :
  considerSignature lowerText best x
  = if js_gt (score lowerText x) (Detection.confidence best)
    then wonBy lowerText x else best.
Proof. reflexivity. Qed.

(** The loop returns its start value or a signature that beat it. *)
Lemma bestMatch_cases (catalogue : list Signature) (best : Detection.t) :
  fold_left (considerSignature lowerText) catalogue best = best \/
  exists sw, In sw catalogue /\
             fold_left (considerSignature lowerText) catalogue best = wonBy lowerText sw /\
             (Detection.confidence best < score lowerText sw)%Q.
Proof.
  revert best. induction catalogue as [|x catalogue IH]; intros best; simpl.
  - now left.
  - rewrite considerSignature_eq.
    destruct (js_gt (score lowerText x) (Detection.confidence best)) eqn:Hgt.
    + apply js_gt_spec in Hgt. right.
      destruct (IH (wonBy lowerText x)) as [-> | [sw [Hin [-> Hlt]]]].
      * exists x. auto.
      * exists sw. repeat split; auto.
        simpl in Hlt. now apply Qlt_trans with (score lowerText x).
    + destruct (IH best) as [-> | [sw [Hin [-> Hlt]]]]; [now left|].
      right. exists sw. auto.
Qed.

(** A start value that no signature beats is returned. *)
Lemma bestMatch_stays (catalogue : list Signature) (best : Detection.t) :
  (forall sw, In sw catalogue ->
              (score lowerText sw <= Detection.confidence best)%Q) ->
  fold_left (considerSignature lowerText) catalogue best = best.
Proof.
  induction catalogue as [|x catalogue IH]; intros Hle; simpl; [reflexivity|].
  rewrite considerSignature_eq.
  destruct (js_gt (score lowerText x) (Detection.confidence best)) eqn:Hgt.
  - apply js_gt_spec in Hgt. exfalso.
    apply (Qlt_not_le _ _ Hgt). apply Hle. now left.
  - apply IH. intros sw Hin. apply Hle. now right.
Qed.

(** The first signature whose score is the highest wins, when that score
    beats the start value. *)
Lemma bestMatch_first_highest
    (before : list Signature) (sw : Signature) (after : list Signature)
    (best : Detection.t) :
  (forall x, In x before -> (score lowerText x < score lowerText sw)%Q) ->
  (forall x, In x after -> (score lowerText x <= score lowerText sw)%Q) ->
  (Detection.confidence best < score lowerText sw)%Q ->
  fold_left (considerSignature lowerText) (before ++ sw :: after) best = wonBy lowerText sw.
Proof.
  revert best. induction before as [|x before IH]; intros best Hb Ha Hbest; simpl.
  - rewrite considerSignature_eq.
    apply js_gt_spec in Hbest. rewrite Hbest.
    now apply bestMatch_stays.
  - apply IH; [intros y Hy; apply Hb; now right | exact Ha |].
    rewrite considerSignature_eq.
    destruct (js_gt (score lowerText x) (Detection.confidence best));
      [simpl; apply Hb; now left | exact Hbest].
Qed.
End BestMatch.

(** ** Facts about the catalogues *)

Ltac each_signature H :=
  unfold softwarePatterns in H; simpl In in H;
  repeat (destruct H as [<- | H]); [ .. | contradiction ].

Lemma names_distinct (sw sw' : Signature) :
  In sw softwarePatterns -> In sw' softwarePatterns ->
  name sw = name sw' -> sw = sw'.
Proof.
  intros H H' E. apply jsstring_eqb_eq in E.
  each_signature H; each_signature H'; try reflexivity;
    vm_compute in E; discriminate.
Qed.

Lemma name_not_unknown (sw : Signature) :
  In sw softwarePatterns -> name sw <> js "Unknown".
Proof.
  intros H E. apply jsstring_eqb_eq in E.
  each_signature H; vm_compute in E; discriminate.
Qed.

Lemma patterns_nonempty (sw : Signature) :
  In sw softwarePatterns -> 0 < length (patterns sw).
Proof. intros H. each_signature H; simpl; lia. Qed.

Lemma detect_cases (toLowerCase : jsstring -> jsstring) (text : jsstring) :
  detectCreativeSoftware toLowerCase text = unknownMatch \/
  exists sw, In sw softwarePatterns /\
             detectCreativeSoftware toLowerCase text = wonBy (toLowerCase text) sw /\
             (0 < score (toLowerCase text) sw)%Q.
Proof. apply bestMatch_cases. Qed.

Lemma detect_first_highest (toLowerCase : jsstring -> jsstring)
    (text : jsstring) (sw : Signature) :
  firstHighest (toLowerCase text) softwarePatterns sw ->
  (0 < score (toLowerCase text) sw)%Q ->
  detectCreativeSoftware toLowerCase text = wonBy (toLowerCase text) sw.
Proof.
  intros [earlier [later [Hsplit [Hearlier Hlater]]]] Hpos.
  unfold detectCreativeSoftware. rewrite Hsplit.
  now apply bestMatch_first_highest.
Qed.

Lemma detect_all_zero (toLowerCase : jsstring -> jsstring) (text : jsstring) :
  (forall sw, In sw softwarePatterns -> (score (toLowerCase text) sw == 0)%Q) ->
  detectCreativeSoftware toLowerCase text = unknownMatch.
Proof.
  intros Hzero. apply bestMatch_stays. intros sw Hin.
  rewrite (Hzero sw Hin). apply Qle_refl.
Qed.

(** ** Properties of [detectCreativeSoftware] *)

(** C2. The confidence lies in [0, 1]; when the result names a signature of
    the catalogue, the confidence is the number of keyword patterns of that
    signature that the lower-cased text includes, divided by the number of
    its keyword patterns. *)
Theorem confidence_is_match_ratio
    (toLowerCase : jsstring -> jsstring) (text : jsstring) :
  (0 <= Detection.confidence (detectCreativeSoftware toLowerCase text) <= 1)%Q /\
  forall sw, In sw softwarePatterns ->
    Detection.software (detectCreativeSoftware toLowerCase text) = name sw ->
    (Detection.confidence (detectCreativeSoftware toLowerCase text) ==
       inject_Z (Z.of_nat (matchedKeywords (toLowerCase text) sw)) /
       inject_Z (Z.of_nat (length (patterns sw))))%Q.
Proof.
  destruct (detect_cases toLowerCase text) as [-> | [sw0 [Hin0 [-> Hpos]]]].
  - split; [split; discriminate|].
    intros sw Hin Hname. symmetry in Hname.
    now apply name_not_unknown in Hname.
  - split; [apply score_bounds|].
    intros sw Hin Hname. simpl in Hname.
    apply (names_distinct _ _ Hin0 Hin) in Hname. subst sw0. simpl.
    unfold score, matchedKeywords. rewrite <- countMatches_filter.
    apply js_div_quotient, patterns_nonempty, Hin.
Qed.

(** "timeline" alone: the result names Premiere Pro, one of whose five
    keyword patterns occurs. *)
Lemma confidence_of_timeline :
  (Detection.confidence (detectCreativeSoftware ascii_toLowerCase (js "timeline")) ==
     inject_Z (Z.of_nat (matchedKeywords (ascii_toLowerCase (js "timeline")) premierePro)) /
     inject_Z (Z.of_nat (length (patterns premierePro))))%Q.
Proof.
  apply (proj2 (confidence_is_match_ratio ascii_toLowerCase (js "timeline")) premierePro).
  - now left.
  - vm_compute. reflexivity.
Defined.

(** C10. The detected software is "Unknown" exactly when the confidence is 0,
    and a named application carries a confidence above 0. *)
Theorem unknown_iff_zero_confidence
    (toLowerCase : jsstring -> jsstring) (text : jsstring) :
  (Detection.software (detectCreativeSoftware toLowerCase text) = js "Unknown" <->
   (Detection.confidence (detectCreativeSoftware toLowerCase text) == 0)%Q) /\
  (Detection.software (detectCreativeSoftware toLowerCase text) <> js "Unknown" ->
   (0 < Detection.confidence (detectCreativeSoftware toLowerCase text))%Q).
Proof.
  destruct (detect_cases toLowerCase text) as [-> | [sw [Hin [-> Hpos]]]]; simpl.
  - split; [split; reflexivity | intros H; now elim H].
  - split; [split|]; intros H.
    + now apply name_not_unknown in H.
    + rewrite H in Hpos. now apply Qlt_irrefl in Hpos.
    + exact Hpos.
Qed.

Lemma named_result_is_positive :
  (0 < Detection.confidence (detectCreativeSoftware ascii_toLowerCase (js "timeline")))%Q.
Proof.
  apply (proj2 (unknown_iff_zero_confidence ascii_toLowerCase (js "timeline"))).
  intros E. apply jsstring_eqb_eq in E. vm_compute in E. discriminate.
Defined.

Ltac by_running := vm_compute; reflexivity.

Ltac includes_by_running := apply includes_spec; by_running.

Ltac score_le_by_running := apply Qle_bool_iff; by_running.

(** C3, as it is stated, fails on the empty text: every signature scores 0,
    so "Adobe Premiere Pro" is the first of the signatures with the highest
    score, and the result is "Unknown". *)
Lemma tie_at_zero_is_unknown :
  firstHighest (ascii_toLowerCase []) softwarePatterns premierePro /\
  score (ascii_toLowerCase []) daVinciResolve
    = score (ascii_toLowerCase []) premierePro /\
  Detection.software (detectCreativeSoftware ascii_toLowerCase [])
    <> name premierePro.
Proof.
  split; [|split].
  - exists [], (tl softwarePatterns). split; [reflexivity|].
    split; intros x H; [contradiction|].
    simpl in H. repeat (destruct H as [<- | H]); try contradiction;
      score_le_by_running.
  - by_running.
  - intros E. apply jsstring_eqb_eq in E. vm_compute in E. discriminate.
Qed.

(** C3, amended. The first signature of the catalogue among those with the
    highest score is the result, with that score as confidence, whenever that
    score is above 0; when every signature scores 0 the result is "Unknown". *)
Theorem first_highest_wins_when_positive
    (toLowerCase : jsstring -> jsstring) (text : jsstring) :
  (forall sw,
     firstHighest (toLowerCase text) softwarePatterns sw ->
     (0 < score (toLowerCase text) sw)%Q ->
     Detection.software (detectCreativeSoftware toLowerCase text) = name sw /\
     Detection.confidence (detectCreativeSoftware toLowerCase text)
       = score (toLowerCase text) sw) /\
  ((forall sw, In sw softwarePatterns -> (score (toLowerCase text) sw == 0)%Q) ->
   Detection.software (detectCreativeSoftware toLowerCase text) = js "Unknown").
Proof.
  split.
  - intros sw Hfirst Hpos. rewrite (detect_first_highest _ _ _ Hfirst Hpos).
    split; reflexivity.
  - intros Hzero. now rewrite (detect_all_zero _ _ Hzero).
Qed.

(** "timeline" alone: Premiere Pro and After Effects both score 1/5, and the
    one declared first is the result. *)
Lemma first_highest_wins_on_timeline :
  Detection.software (detectCreativeSoftware ascii_toLowerCase (js "timeline"))
    = name premierePro /\
  Detection.confidence (detectCreativeSoftware ascii_toLowerCase (js "timeline"))
    = score (ascii_toLowerCase (js "timeline")) premierePro.
Proof.
  apply (proj1 (first_highest_wins_when_positive ascii_toLowerCase (js "timeline"))
           premierePro).
  - exists [], (tl softwarePatterns). split; [reflexivity|].
    split; intros x H; [contradiction|].
    simpl in H. repeat (destruct H as [<- | H]); try contradiction;
      score_le_by_running.
  - by_running.
Defined.

(** C5. A text whose lower-casing includes no keyword pattern of any
    signature is classified "Unknown" with confidence 0; the empty text
    gives "Unknown", 0, no panels and no elements. *)
Theorem no_keyword_is_unknown (toLowerCase : jsstring -> jsstring) :
  (forall text,
     (forall sw p, In sw softwarePatterns -> In p (patterns sw) ->
                   ~ Substring p (toLowerCase text)) ->
     Detection.software (detectCreativeSoftware toLowerCase text) = js "Unknown" /\
     Detection.confidence (detectCreativeSoftware toLowerCase text) = 0%Q) /\
  (toLowerCase [] = [] ->
     Detection.software (detectCreativeSoftware toLowerCase []) = js "Unknown" /\
     Detection.confidence (detectCreativeSoftware toLowerCase []) = 0%Q /\
     extractPanels toLowerCase [] = [] /\
     extractUIElements toLowerCase [] = []).
Proof.
  split.
  - intros text Hnone.
    rewrite detect_all_zero; [split; reflexivity|].
    intros sw Hin. unfold score. rewrite countMatches_none.
    + now rewrite js_div_zero.
    + intros p Hp. destruct (includes (toLowerCase text) p) eqn:E; [|reflexivity].
      apply includes_spec in E. now elim (Hnone sw p Hin Hp).
  - intros Hnil.
    unfold detectCreativeSoftware, extractPanels, extractUIElements.
    rewrite Hnil. repeat split; by_running.
Qed.

Lemma no_keyword_is_unknown_on_ascii :
  (Detection.software (detectCreativeSoftware ascii_toLowerCase (js "Hello, World")) = js "Unknown" /\
   Detection.confidence (detectCreativeSoftware ascii_toLowerCase (js "Hello, World")) = 0%Q) /\
  (Detection.software (detectCreativeSoftware ascii_toLowerCase []) = js "Unknown" /\
   Detection.confidence (detectCreativeSoftware ascii_toLowerCase []) = 0%Q /\
   extractPanels ascii_toLowerCase [] = [] /\
   extractUIElements ascii_toLowerCase [] = []).
Proof.
  split.
  - apply (proj1 (no_keyword_is_unknown ascii_toLowerCase) (js "Hello, World")).
    intros sw p Hsw Hp Hsub. apply includes_spec in Hsub.
    each_signature Hsw; simpl in Hp;
      repeat (destruct Hp as [<- | Hp]); try contradiction;
      vm_compute in Hsub; discriminate.
  - apply (proj2 (no_keyword_is_unknown ascii_toLowerCase)). reflexivity.
Defined.

Lemma premiere_keywords_in_lowerText
    (toLowerCase : jsstring -> jsstring) (text : jsstring) :
  (forall p, In p (patterns premierePro) -> Substring p (toLowerCase text)) ->
  detectCreativeSoftware toLowerCase text
  = {| Detection.software := js "Adobe Premiere Pro";
       Detection.confidence := 1%Q |}.
Proof.
  intros Hall.
  assert (Hscore : score (toLowerCase text) premierePro = 1%Q).
  { unfold score. rewrite countMatches_all.
    - apply js_div_full. simpl. lia.
    - intros p Hp. apply includes_spec. now apply Hall. }
  rewrite (detect_first_highest toLowerCase text premierePro).
  - unfold wonBy. now rewrite Hscore.
  - exists [], (tl softwarePatterns). split; [reflexivity|].
    split; intros x H; [contradiction|].
    rewrite Hscore. apply score_bounds.
  - now rewrite Hscore.
Qed.

(** C6. A text that contains "premiere", "timeline", "lumetri color",
    "essential graphics" and "sequence" is classified "Adobe Premiere Pro"
    with confidence 1, for a [toLowerCase] that keeps lower-case ASCII
    patterns in place. *)
Theorem all_premiere_keywords_give_full_confidence
    (toLowerCase : jsstring -> jsstring) (text : jsstring) :
  keeps_uncased_ascii toLowerCase ->
  Substring (js "premiere") text ->
  Substring (js "timeline") text ->
  Substring (js "lumetri color") text ->
  Substring (js "essential graphics") text ->
  Substring (js "sequence") text ->
  Detection.software (detectCreativeSoftware toLowerCase text) = js "Adobe Premiere Pro" /\
  Detection.confidence (detectCreativeSoftware toLowerCase text) = 1%Q.
Proof.
  intros Hkeeps H1 H2 H3 H4 H5.
  assert (H3' : Substring (js "lumetri") text).
  { apply Substring_trans with (js "lumetri color"); [|exact H3].
    includes_by_running. }
  rewrite premiere_keywords_in_lowerText; [split; reflexivity|].
  intros p Hp. simpl in Hp.
  repeat (destruct Hp as [<- | Hp]); try contradiction;
    (apply Hkeeps; [by_running | assumption]).
Qed.

Lemma all_premiere_keywords_on_ascii :
  Detection.software
    (detectCreativeSoftware ascii_toLowerCase
       (js "Premiere Pro: premiere timeline | lumetri color | essential graphics | sequence 01"))
    = js "Adobe Premiere Pro" /\
  Detection.confidence
    (detectCreativeSoftware ascii_toLowerCase
       (js "Premiere Pro: premiere timeline | lumetri color | essential graphics | sequence 01"))
    = 1%Q.
Proof.
  apply (all_premiere_keywords_give_full_confidence ascii_toLowerCase
           (js "Premiere Pro: premiere timeline | lumetri color | essential graphics | sequence 01")).
  - exact ascii_toLowerCase_keeps.
  - includes_by_running.
  - includes_by_running.
  - includes_by_running.
  - includes_by_running.
  - includes_by_running.
Defined.

(** ** The catalogue scans *)

Lemma collectIncluded_from (lowerText : jsstring) (catalogue found : list jsstring) :
  fold_left (fun found entry =>
               if includes lowerText entry then found ++ [entry] else found)
            catalogue found
  = found ++ filter (includes lowerText) catalogue.
Proof.
  revert found. induction catalogue as [|e catalogue IH]; intros found; simpl.
  - now rewrite app_nil_r.
  - rewrite IH. destruct (includes lowerText e); [|reflexivity].
    now rewrite <- app_assoc.
Qed.

Lemma collectIncluded_filter (lowerText : jsstring) (catalogue : list jsstring) :
  collectIncluded lowerText catalogue = filter (includes lowerText) catalogue.
Proof. unfold collectIncluded. now rewrite collectIncluded_from. Qed.

Lemma InOrderOf_filter {A : Type} (f : A -> bool) (l : list A) :
  InOrderOf (filter f l) l.
Proof.
  induction l as [|x l IH]; simpl; [constructor|].
  destruct (f x); now constructor.
Qed.

Lemma InOrderOf_trans {A : Type} (l m n : list A) :
  InOrderOf l m -> InOrderOf m n -> InOrderOf l n.
Proof.
  intros Hlm Hmn. revert l Hlm.
  induction Hmn as [n | x m n Hmn IH | x m n Hmn IH]; intros l Hlm.
  - inversion Hlm. constructor.
  - inversion Hlm; subst.
    + constructor.
    + apply InOrderOf_keep. now apply IH.
    + apply InOrderOf_skip. now apply IH.
  - apply InOrderOf_skip. now apply IH.
Qed.

Lemma existsb_jsstring_eqb (x : jsstring) (seen : list jsstring) :
  existsb (jsstring_eqb x) seen = true <-> In x seen.
Proof.
  rewrite existsb_exists. split.
  - intros [y [Hy E]]. apply jsstring_eqb_eq in E. now subst.
  - intros H. exists x. split; [exact H | now apply jsstring_eqb_eq].
Qed.

(** What a [Set] that already holds [seen] holds after the insertion of [xs]:
    [seen], then the first occurrence of every new value, in the order of
    [xs]. *)
Lemma setInsertAll_spec (xs : list jsstring) :
  forall seen, NoDup seen ->
  exists kept,
    setInsertAll seen xs = seen ++ kept /\
    InOrderOf kept xs /\
    NoDup (seen ++ kept) /\
    forall e, In e kept <-> In e xs /\ ~ In e seen.
Proof.
  induction xs as [|x xs IH]; intros seen Hseen; simpl.
  - exists []. rewrite app_nil_r.
    split; [reflexivity|]. split; [constructor|]. split; [assumption|].
    intros e. simpl. tauto.
  - destruct (existsb (jsstring_eqb x) seen) eqn:E.
    + apply existsb_jsstring_eqb in E.
      destruct (IH seen Hseen) as [kept [Heq [Hord [Hnd Hin]]]].
      exists kept.
      split; [exact Heq|]. split; [now apply InOrderOf_skip|].
      split; [exact Hnd|].
      intros e. rewrite Hin. split.
      * intros [H1 H2]. auto.
      * intros [[<- | H] Hnot]; [contradiction | auto].
    + assert (Hx : ~ In x seen).
      { intros H. apply existsb_jsstring_eqb in H. congruence. }
      assert (Hseen' : NoDup (seen ++ [x])).
      { apply NoDup_app; [assumption | repeat constructor; auto |].
        intros a Ha [<- | []]. contradiction. }
      destruct (IH (seen ++ [x]) Hseen') as [kept [Heq [Hord [Hnd Hin]]]].
      rewrite <- app_assoc in Heq, Hnd. simpl in Heq, Hnd.
      exists (x :: kept).
      split; [exact Heq|]. split; [now apply InOrderOf_keep|].
      split; [exact Hnd|].
      intros e. simpl. rewrite Hin. split.
      * intros [<- | [H1 H2]]; [split; [now left | exact Hx]|].
        split; [now right|]. intros H'. apply H2, in_or_app. now left.
      * intros [[<- | H] Hnot]; [now left|].
        destruct (list_eq_dec N.eq_dec x e) as [<- | Hne]; [now left | right].
        split; [assumption|].
        intros H'. apply in_app_or in H' as [H' | [H' | []]]; auto.
Qed.

Lemma spreadSet_spec (xs : list jsstring) :
  InOrderOf (spreadSet xs) xs /\
  NoDup (spreadSet xs) /\
  forall e, In e (spreadSet xs) <-> In e xs.
Proof.
  destruct (setInsertAll_spec xs [] (NoDup_nil _)) as [kept [Heq [Hord [Hnd Hin]]]].
  unfold spreadSet. rewrite Heq. simpl in *.
  split; [exact Hord|]. split; [exact Hnd|].
  intros e. rewrite Hin. tauto.
Qed.

Lemma panelPatterns_NoDup : NoDup panelPatterns.
Proof.
  replace panelPatterns with (spreadSet panelPatterns) by by_running.
  apply spreadSet_spec.
Qed.

(** C4. Each of [extractPanels] and [extractUIElements] returns the entries of
    its catalogue that occur in the lower-cased text, each once, in the order
    of the catalogue. *)
Theorem scans_list_included_entries_once_in_order
    (toLowerCase : jsstring -> jsstring) (text : jsstring) :
  ((forall e, In e (extractPanels toLowerCase text) <->
              In e panelPatterns /\ Substring e (toLowerCase text)) /\
   NoDup (extractPanels toLowerCase text) /\
   InOrderOf (extractPanels toLowerCase text) panelPatterns) /\
  ((forall e, In e (extractUIElements toLowerCase text) <->
              In e uiPatterns /\ Substring e (toLowerCase text)) /\
   NoDup (extractUIElements toLowerCase text) /\
   InOrderOf (extractUIElements toLowerCase text) uiPatterns).
Proof.
  unfold extractPanels, extractUIElements. rewrite !collectIncluded_filter.
  split; (split; [|split]).
  - intros e. now rewrite filter_In, includes_spec.
  - apply NoDup_filter, panelPatterns_NoDup.
  - apply InOrderOf_filter.
  - intros e. destruct (spreadSet_spec (filter (includes (toLowerCase text)) uiPatterns))
      as [_ [_ Hin]].
    now rewrite Hin, filter_In, includes_spec.
  - apply spreadSet_spec.
  - apply InOrderOf_trans with (filter (includes (toLowerCase text)) uiPatterns).
    + apply spreadSet_spec.
    + apply InOrderOf_filter.
Qed.

(** "project panel" stands twice in [uiPatterns] and once in the result. *)
Example extractUIElements_project_panel :
  extractUIElements ascii_toLowerCase (js "Project Panel")
  = List.map js ["panel"; "project panel"]%string.
Proof. by_running. Qed.

(** ** The permission helper, run *)

Lemma check_elsewhere (env : Environment) (st : State) :
  isDarwin env = false ->
  PermissionsHelper.checkScreenCapturePermission env st = (Returned true, st).
Proof.
  intros H. unfold PermissionsHelper.checkScreenCapturePermission.
  now rewrite H.
Qed.

Lemma check_darwin (env : Environment) (st : State) :
  isDarwin env = true ->
  PermissionsHelper.checkScreenCapturePermission env st
  = (Returned (statusGranted env (history st)), record_call queryStatus st).
Proof.
  intros H.
  unfold PermissionsHelper.checkScreenCapturePermission, statusGranted.
  rewrite H. cbn [negb].
  unfold try_catch, bind, getMediaAccessStatus, perform.
  destruct (answer_getMediaAccessStatus env (history st) (js "screen"));
    reflexivity.
Qed.

(** The check never throws, and it answers [false] on macOS only. *)
Lemma check_returns (env : Environment) (st : State) :
  exists b st',
    PermissionsHelper.checkScreenCapturePermission env st = (Returned b, st') /\
    (b = false -> isDarwin env = true).
Proof.
  destruct (isDarwin env) eqn:H.
  - rewrite (check_darwin env st H). eauto.
  - rewrite (check_elsewhere env st H). exists true, st. split; [reflexivity | discriminate].
Qed.

Lemma handle_elsewhere (env : Environment) (st : State) :
  isDarwin env = false ->
  PermissionsHelper.handlePermissionForContextCapture env st = (Returned true, st).
Proof.
  intros H. unfold PermissionsHelper.handlePermissionForContextCapture, bind.
  rewrite (check_elsewhere env st H), H. reflexivity.
Qed.

Lemma handle_darwin (env : Environment) (st : State) :
  isDarwin env = true ->
  PermissionsHelper.handlePermissionForContextCapture env st
  = if statusGranted env (history st)
    then (Returned true, record_call queryStatus st)
    else
      match answer_screenshot env (history st ++ [queryStatus]) permissionTestFile with
      | Thrown _ =>
          (Returned false, record_call probeCapture (record_call queryStatus st))
      | Returned _ =>
          (Returned (statusGranted env
                       (history st ++ [queryStatus] ++ [probeCapture] ++ [probeDelete])),
           record_call queryStatus
             (record_call probeDelete
                (record_call probeCapture (record_call queryStatus st))))
      end.
Proof.
  intros H. unfold PermissionsHelper.handlePermissionForContextCapture, bind.
  rewrite (check_darwin env st H), H.
  destruct (statusGranted env (history st)); [reflexivity|].
  cbn [negb andb].
  unfold try_catch at 1. unfold bind, screenshot, perform.
  cbn [history record_call].
  destruct (answer_screenshot env (history st ++ [queryStatus]) permissionTestFile);
    [|reflexivity].
  unfold try_catch, unlinkSync, perform.
  destruct (answer_unlinkSync env (history (record_call probeCapture (record_call queryStatus st)))
              permissionTestFile);
    cbn [ret]; rewrite check_darwin by exact H;
    cbn [history record_call]; rewrite <- !app_assoc; reflexivity.
Qed.

(** The helper only queries the status, captures the probe and deletes it. *)
Lemma handle_calls (env : Environment) (st : State) :
  exists b calls,
    PermissionsHelper.handlePermissionForContextCapture env st
    = (Returned b, {| ocrWorker := ocrWorker st; history := history st ++ calls |}) /\
    Forall permission_call calls.
Proof.
  destruct (isDarwin env) eqn:H.
  - rewrite (handle_darwin env st H).
    destruct (statusGranted env (history st)).
    + exists true, [queryStatus]. split; [reflexivity|]. repeat constructor.
    + destruct (answer_screenshot env (history st ++ [queryStatus]) permissionTestFile).
      * eexists _, [queryStatus; probeCapture; probeDelete; queryStatus].
        split; [|repeat constructor].
        unfold record_call. cbn [history ocrWorker].
        rewrite <- !app_assoc. reflexivity.
      * exists false, [queryStatus; probeCapture].
        split; [|repeat constructor].
        unfold record_call. cbn [history ocrWorker].
        rewrite <- !app_assoc. reflexivity.
  - rewrite (handle_elsewhere env st H). exists true, [].
    split; [|constructor]. rewrite app_nil_r. now destruct st.
Qed.

(** C9, as it is stated, fails on the second text of
    [handlePermissionForContextCapture]: the permission is not granted, a
    probe capture would have had it granted, and the method returns [false]
    after the one status query, with no capture, deletion or second query. *)
Lemma second_copy_never_probes :
  PermissionsHelper.checkScreenCapturePermission macGrantedOnPrompt idle
  = (Returned false, {| ocrWorker := None; history := [queryStatus] |}) /\
  statusGranted macGrantedOnPrompt [queryStatus; probeCapture; probeDelete] = true /\
  PermissionsHelperSecondCopy.handlePermissionForContextCapture macGrantedOnPrompt idle
  = (Returned false, {| ocrWorker := None; history := [queryStatus] |}).
Proof. repeat split. Qed.

(** C9, amended. Both texts of [handlePermissionForContextCapture] return
    [true] with no further call when the check says granted.  Otherwise the
    first text makes one probe capture: if that throws the result is
    [false]; if not it deletes the probe file, whatever the deletion
    answers, and returns what the check then says.  The second text makes
    no call of its own and returns what the check said. *)
Theorem prompt_probes_once_and_rechecks
    (env : Environment) (st : State) (granted : bool) (st1 : State) :
  PermissionsHelper.checkScreenCapturePermission env st = (Returned granted, st1) ->
  (granted = true ->
     PermissionsHelper.handlePermissionForContextCapture env st
     = (Returned true, st1)) /\
  (granted = false ->
     (forall e,
        answer_screenshot env (history st1) permissionTestFile = Thrown e ->
        PermissionsHelper.handlePermissionForContextCapture env st
        = (Returned false, record_call probeCapture st1)) /\
     (forall u,
        answer_screenshot env (history st1) permissionTestFile = Returned u ->
        PermissionsHelper.handlePermissionForContextCapture env st
        = PermissionsHelper.checkScreenCapturePermission env
            (record_call probeDelete (record_call probeCapture st1)) /\
        exists after,
          PermissionsHelper.handlePermissionForContextCapture env st
          = (Returned (statusGranted env (history st1 ++ [probeCapture; probeDelete])),
             after))) /\
  PermissionsHelperSecondCopy.handlePermissionForContextCapture env st
  = (Returned granted, st1).
Proof.
  intros Hcheck.
  assert (Hsecond :
    PermissionsHelperSecondCopy.handlePermissionForContextCapture env st
    = (Returned granted, st1)).
  { unfold PermissionsHelperSecondCopy.handlePermissionForContextCapture,
      PermissionsHelperSecondCopy.checkScreenCapturePermission, bind.
    now rewrite Hcheck. }
  split; [|split; [|exact Hsecond]]; clear Hsecond.
  - intros ->. destruct (isDarwin env) eqn:H.
    + rewrite (check_darwin env st H) in Hcheck.
      injection Hcheck as Hgranted <-.
      now rewrite (handle_darwin env st H), Hgranted.
    + rewrite (check_elsewhere env st H) in Hcheck.
      injection Hcheck as <-.
      now rewrite (handle_elsewhere env st H).
  - intros ->. destruct (isDarwin env) eqn:H.
    + rewrite (check_darwin env st H) in Hcheck.
      injection Hcheck as Hgranted <-.
      rewrite (handle_darwin env st H), Hgranted. cbn [history record_call].
      split.
      * intros e He. now rewrite He.
      * intros u Hu. rewrite Hu, (check_darwin _ _ H). cbn [history record_call].
        rewrite <- !app_assoc. split; [reflexivity|]. eexists. reflexivity.
    + rewrite (check_elsewhere env st H) in Hcheck. discriminate.
Qed.

(** The user grants the permission when the probe runs and the probe file
    cannot be deleted: the result is [true], after exactly one probe. *)
Lemma prompt_on_first_use :
  PermissionsHelper.handlePermissionForContextCapture macGrantedOnPrompt idle
  = (Returned true,
     {| ocrWorker := None;
        history := [queryStatus; probeCapture; probeDelete; queryStatus] |}).
Proof.
  destruct (prompt_probes_once_and_rechecks macGrantedOnPrompt idle false
              (record_call queryStatus idle) eq_refl) as [_ [Hdenied _]].
  destruct (Hdenied eq_refl) as [_ Hprobe].
  destruct (Hprobe tt eq_refl) as [Hrecheck _].
  rewrite Hrecheck. reflexivity.
Defined.

(** The second copy of the helper returns what the check says and makes no
    other call. *)
Lemma second_copy_does_not_prompt (env : Environment) (st : State) :
  PermissionsHelperSecondCopy.handlePermissionForContextCapture env st
  = PermissionsHelper.checkScreenCapturePermission env st.
Proof.
  unfold PermissionsHelperSecondCopy.handlePermissionForContextCapture,
    PermissionsHelperSecondCopy.checkScreenCapturePermission, bind.
  destruct (check_returns env st) as [b [st' [-> _]]]. reflexivity.
Qed.

(** ** The pipeline, run *)

Section Pipeline.
Variable toLowerCase : jsstring -> jsstring.
Variable env : Environment.

Lemma captureAndAnalyze_steps (st : State) :
  captureAndAnalyze toLowerCase env st
  = match answer_takeScreenshot env (history st) with
    | Thrown e => (Thrown e, record_call TakeScreenshot st)
    | Returned screenshotPath =>
        match initializeOCR env (record_call TakeScreenshot st) with
        | (Thrown e, st2) => (Thrown e, st2)
        | (Returned _, st2) =>
            match ocrWorker_recognize env screenshotPath st2 with
            | (Thrown e, st3) => (Thrown e, st3)
            | (Returned text, st3) =>
                (Returned (analyze toLowerCase text screenshotPath), st3)
            end
        end
    end.
Proof.
  unfold captureAndAnalyze, bind, takeScreenshot, perform.
  destruct (answer_takeScreenshot env (history st)); reflexivity.
Qed.

(** A gate that answers [false] on macOS ends the run. *)
Lemma gate_closed (gate : M bool) (st st1 : State) :
  gate st = (Returned false, st1) ->
  isDarwin env = true ->
  captureAndAnalyzeContextWith toLowerCase env gate st
  = (Returned permissionRequired, st1).
Proof.
  intros Hgate H. unfold captureAndAnalyzeContextWith, try_catch, bind.
  rewrite Hgate, H. reflexivity.
Qed.

(** Past an open gate the run is the capture and analysis, with every
    exception turned into the "Unknown" record. *)
Lemma gate_open (gate : M bool) (st : State) (hasPermission : bool) (st1 : State) :
  gate st = (Returned hasPermission, st1) ->
  gateOpen env hasPermission ->
  captureAndAnalyzeContextWith toLowerCase env gate st
  = match captureAndAnalyze toLowerCase env st1 with
    | (Returned r, st') => (Returned r, st')
    | (Thrown _, st') => (Returned unknownContext, st')
    end.
Proof.
  intros Hgate Hopen. unfold captureAndAnalyzeContextWith, try_catch, bind.
  rewrite Hgate, Hopen. reflexivity.
Qed.

Lemma analyze_wellFormed (text screenshotPath : jsstring) :
  wellFormed (analyze toLowerCase text screenshotPath).
Proof.
  unfold wellFormed, analyze. cbn [confidence panels ui_elements text_content].
  split; [|split; [|split]].
  - destruct (detect_cases toLowerCase text) as [-> | [sw [_ [-> _]]]].
    + split; discriminate.
    + apply score_bounds.
  - unfold extractPanels. rewrite collectIncluded_filter.
    apply NoDup_filter, panelPatterns_NoDup.
  - apply spreadSet_spec.
  - unfold slice. rewrite skipn_O, length_firstn. apply Nat.le_min_l.
Qed.

(** Whatever the gate does, the run returns one of three records. *)
Lemma run_returns (gate : M bool) (st : State) :
  exists r st',
    captureAndAnalyzeContextWith toLowerCase env gate st = (Returned r, st') /\
    (r = permissionRequired \/ r = unknownContext \/
     exists text screenshotPath, r = analyze toLowerCase text screenshotPath).
Proof.
  unfold captureAndAnalyzeContextWith, try_catch, bind.
  destruct (gate st) as [[hasPermission | e] st1].
  - destruct (negb hasPermission && isDarwin env).
    + exists permissionRequired, st1. split; [reflexivity | now left].
    + rewrite captureAndAnalyze_steps.
      destruct (answer_takeScreenshot env (history st1)) as [path | e].
      * destruct (initializeOCR env (record_call TakeScreenshot st1)) as [[[] | e] st2].
        -- destruct (ocrWorker_recognize env path st2) as [[text | e] st3].
           ++ exists (analyze toLowerCase text path), st3.
              split; [reflexivity | right; right; now exists text, path].
           ++ exists unknownContext, st3. split; [reflexivity | right; now left].
        -- exists unknownContext, st2. split; [reflexivity | right; now left].
      * exists unknownContext, (record_call TakeScreenshot st1).
        split; [reflexivity | right; now left].
  - exists unknownContext, st1. split; [reflexivity | right; now left].
Qed.
End Pipeline.

Lemma permissionRequired_wellFormed : wellFormed permissionRequired.
Proof.
  unfold wellFormed. cbn [confidence panels ui_elements text_content permissionRequired].
  split; [split; discriminate|]. split; [constructor|]. split; [constructor|].
  apply Nat.leb_le. by_running.
Qed.

Lemma unknownContext_wellFormed : wellFormed unknownContext.
Proof.
  unfold wellFormed. cbn [confidence panels ui_elements text_content unknownContext].
  split; [split; discriminate|]. split; [constructor|]. split; [constructor|].
  simpl. lia.
Qed.

(** C1. Every run of [captureAndAnalyzeContext] returns a well-formed record
    and throws nothing.  Past the permission gate, a failure of the
    screenshot, of the OCR initialisation or of the recognition makes the
    result the "Unknown" record, all of whose other fields are empty. *)
Theorem run_never_throws_and_failures_give_unknown
    (toLowerCase : jsstring -> jsstring) (env : Environment) (st : State) :
  (exists r st',
     captureAndAnalyzeContext toLowerCase env st = (Returned r, st') /\
     wellFormed r) /\
  (forall hasPermission st1,
     PermissionsHelper.handlePermissionForContextCapture env st
       = (Returned hasPermission, st1) ->
     gateOpen env hasPermission ->
     (forall e,
        answer_takeScreenshot env (history st1) = Thrown e ->
        captureAndAnalyzeContext toLowerCase env st
        = (Returned unknownContext, record_call TakeScreenshot st1)) /\
     (forall screenshotPath e st2,
        answer_takeScreenshot env (history st1) = Returned screenshotPath ->
        initializeOCR env (record_call TakeScreenshot st1) = (Thrown e, st2) ->
        captureAndAnalyzeContext toLowerCase env st
        = (Returned unknownContext, st2)) /\
     (forall screenshotPath u st2 e st3,
        answer_takeScreenshot env (history st1) = Returned screenshotPath ->
        initializeOCR env (record_call TakeScreenshot st1) = (Returned u, st2) ->
        ocrWorker_recognize env screenshotPath st2 = (Thrown e, st3) ->
        captureAndAnalyzeContext toLowerCase env st
        = (Returned unknownContext, st3))).
Proof.
  unfold captureAndAnalyzeContext. split.
  - destruct (run_returns toLowerCase env
                (PermissionsHelper.handlePermissionForContextCapture env) st)
      as [r [st' [Hrun Hr]]].
    exists r, st'. split; [exact Hrun|].
    destruct Hr as [-> | [-> | [text [path ->]]]].
    + apply permissionRequired_wellFormed.
    + apply unknownContext_wellFormed.
    + apply analyze_wellFormed.
  - intros hasPermission st1 Hgate Hopen.
    rewrite (gate_open toLowerCase env _ st hasPermission st1 Hgate Hopen).
    rewrite captureAndAnalyze_steps.
    split; [|split].
    + intros e He. now rewrite He.
    + intros path e st2 Hshot Hinit. now rewrite Hshot, Hinit.
    + intros path u st2 e st3 Hshot Hinit Hrec. now rewrite Hshot, Hinit, Hrec.
Qed.

(** Recognition fails on a granted macOS: the record is "Unknown" and holds
    neither the screenshot path nor any text. *)
Lemma recognition_failure_gives_unknown :
  captureAndAnalyzeContext ascii_toLowerCase macRecognitionFails idle
  = (Returned unknownContext,
     {| ocrWorker := Some 1;
        history := [queryStatus; TakeScreenshot; CreateWorker;
                    LoadLanguage 1 (js "eng"); Initialize 1 (js "eng");
                    Recognize 1 (js "/tmp/screenshot.png")] |}).
Proof.
  destruct (run_never_throws_and_failures_give_unknown
              ascii_toLowerCase macRecognitionFails idle) as [_ Hfail].
  destruct (Hfail true (record_call queryStatus idle) eq_refl eq_refl)
    as [_ [_ Hrecognize]].
  rewrite (Hrecognize (js "/tmp/screenshot.png") tt
             {| ocrWorker := Some 1;
                history := [queryStatus; TakeScreenshot; CreateWorker;
                            LoadLanguage 1 (js "eng"); Initialize 1 (js "eng")] |}
             (js "recognize failed")
             {| ocrWorker := Some 1;
                history := [queryStatus; TakeScreenshot; CreateWorker;
                            LoadLanguage 1 (js "eng"); Initialize 1 (js "eng");
                            Recognize 1 (js "/tmp/screenshot.png")] |}
             eq_refl eq_refl eq_refl).
  reflexivity.
Defined.

(** C8. On macOS, when the permission helper answers [false], the run
    returns the "Permission Required" record: confidence 0, no panels, no
    elements, the explanatory text and no screenshot path.  The screenshot
    helper is not called. *)
Theorem denied_permission_skips_capture
    (toLowerCase : jsstring -> jsstring) (env : Environment) (st st1 : State) :
  isDarwin env = true ->
  PermissionsHelper.handlePermissionForContextCapture env st = (Returned false, st1) ->
  (exists r,
     captureAndAnalyzeContext toLowerCase env st = (Returned r, st1) /\
     software r = js "Permission Required" /\
     confidence r = 0%Q /\
     panels r = [] /\
     ui_elements r = [] /\
     text_content r = text_content permissionRequired /\
     text_content r <> [] /\
     screenshot_path r = []) /\
  (exists calls,
     history st1 = history st ++ calls /\ ~ In TakeScreenshot calls).
Proof.
  intros H Hgate. split.
  - exists permissionRequired. unfold captureAndAnalyzeContext.
    rewrite (gate_closed toLowerCase env _ st st1 Hgate H).
    repeat split. discriminate.
  - destruct (handle_calls env st) as [b [calls [Hrun Hcalls]]].
    rewrite Hrun in Hgate. injection Hgate as _ <-.
    exists calls. split; [reflexivity|].
    intros Hin. rewrite Forall_forall in Hcalls. exact (Hcalls _ Hin).
Qed.

Lemma denied_permission_on_mac :
  (exists r,
     captureAndAnalyzeContext ascii_toLowerCase macDenied idle
     = (Returned r,
        {| ocrWorker := None;
           history := [queryStatus; probeCapture; probeDelete; queryStatus] |}) /\
     software r = js "Permission Required" /\
     confidence r = 0%Q /\
     panels r = [] /\
     ui_elements r = [] /\
     text_content r = text_content permissionRequired /\
     text_content r <> [] /\
     screenshot_path r = []) /\
  (exists calls,
     [queryStatus; probeCapture; probeDelete; queryStatus] = [] ++ calls /\
     ~ In TakeScreenshot calls).
Proof.
  exact (denied_permission_skips_capture ascii_toLowerCase macDenied idle
           {| ocrWorker := None;
              history := [queryStatus; probeCapture; probeDelete; queryStatus] |}
           eq_refl eq_refl).
Defined.

(** C7, as it is stated, fails on a text with characters outside the basic
    plane: [facesText] has 301 characters, fewer than 500, and the record
    does not hold the whole of it.  It holds the first 500 code units, which
    are 251 characters and end in the first half of a face. *)
Lemma text_of_301_characters_is_cut :
  characters facesText = 301 /\
  length facesText = 601 /\
  exists r st',
    captureAndAnalyzeContext ascii_toLowerCase macFaces idle = (Returned r, st') /\
    text_content r <> facesText /\
    length (text_content r) = 500 /\
    characters (text_content r) = 251 /\
    last (text_content r) 0%N = 55357%N.
Proof.
  split; [by_running|]. split; [by_running|].
  eexists _, _. split; [by_running|].
  split; [|repeat split; by_running].
  intros E. apply (f_equal (@length code_unit)) in E. vm_compute in E. discriminate.
Qed.

(** C7, amended. On a run in which the gate is open and the screenshot, the
    OCR initialisation and the recognition all succeed, [text_content] is
    the first 500 UTF-16 code units of the recognised text as the engine
    returned it: the whole text when it has at most 500 code units. *)
Theorem text_content_is_raw_prefix
    (toLowerCase : jsstring -> jsstring) (env : Environment) (st : State)
    (hasPermission : bool) (st1 : State)
    (screenshotPath : jsstring) (u : unit) (st2 : State)
    (text : jsstring) (st3 : State) :
  PermissionsHelper.handlePermissionForContextCapture env st
    = (Returned hasPermission, st1) ->
  gateOpen env hasPermission ->
  answer_takeScreenshot env (history st1) = Returned screenshotPath ->
  initializeOCR env (record_call TakeScreenshot st1) = (Returned u, st2) ->
  ocrWorker_recognize env screenshotPath st2 = (Returned text, st3) ->
  exists r,
    captureAndAnalyzeContext toLowerCase env st = (Returned r, st3) /\
    text_content r = firstn 500 text /\
    (length text <= 500 -> text_content r = text) /\
    (500 <= length text -> length (text_content r) = 500) /\
    screenshot_path r = screenshotPath.
Proof.
  intros Hgate Hopen Hshot Hinit Hrec.
  exists (analyze toLowerCase text screenshotPath).
  unfold captureAndAnalyzeContext.
  rewrite (gate_open toLowerCase env _ st hasPermission st1 Hgate Hopen).
  rewrite captureAndAnalyze_steps, Hshot, Hinit, Hrec.
  cbn [analyze text_content screenshot_path]. unfold slice. rewrite skipn_O.
  split; [reflexivity|]. split; [reflexivity|].
  split; [|split; [|reflexivity]].
  - intros Hlen. now apply firstn_all2.
  - intros Hlen. rewrite length_firstn. lia.
Qed.

(** A screen of 609 code units, upper case among them: the record holds the
    first 500, as they were recognised. *)
Lemma long_text_is_cut_at_500 :
  exists r,
    captureAndAnalyzeContext ascii_toLowerCase macLongText idle
    = (Returned r,
       {| ocrWorker := Some 1;
          history := [queryStatus; TakeScreenshot; CreateWorker;
                      LoadLanguage 1 (js "eng"); Initialize 1 (js "eng");
                      Recognize 1 (js "/tmp/screenshot.png")] |}) /\
    text_content r = firstn 500 longText /\
    (length longText <= 500 -> text_content r = longText) /\
    (500 <= length longText -> length (text_content r) = 500) /\
    screenshot_path r = js "/tmp/screenshot.png".
Proof.
  exact (text_content_is_raw_prefix ascii_toLowerCase macLongText idle
           true (record_call queryStatus idle)
           (js "/tmp/screenshot.png") tt
           {| ocrWorker := Some 1;
              history := [queryStatus; TakeScreenshot; CreateWorker;
                          LoadLanguage 1 (js "eng"); Initialize 1 (js "eng")] |}
           longText
           {| ocrWorker := Some 1;
              history := [queryStatus; TakeScreenshot; CreateWorker;
                          LoadLanguage 1 (js "eng"); Initialize 1 (js "eng");
                          Recognize 1 (js "/tmp/screenshot.png")] |}
           eq_refl eq_refl eq_refl eq_refl eq_refl).
Defined.

Example long_text_keeps_its_case :
  firstn 500 longText <> firstn 500 (ascii_toLowerCase longText) /\
  length longText = 609.
Proof.
  split; [|by_running].
  intros E. apply jsstring_eqb_eq in E. vm_compute in E. discriminate.
Qed.

(** ** Sample runs *)

Example detect_samples :
  List.map (fun t => detectCreativeSoftware ascii_toLowerCase (js t))
           ["timeline"; "color"; "Library mixer"; "PHOTOSHOP Layers"; ""]%string
  = [ {| Detection.software := js "Adobe Premiere Pro"; Detection.confidence := (1 # 5)%Q |};
      {| Detection.software := js "DaVinci Resolve"; Detection.confidence := (1 # 6)%Q |};
      {| Detection.software := js "Logic Pro"; Detection.confidence := (2 # 5)%Q |};
      {| Detection.software := js "Adobe Photoshop"; Detection.confidence := (2 # 5)%Q |};
      {| Detection.software := js "Unknown"; Detection.confidence := 0%Q |} ].
Proof. by_running. Qed.

Example run_on_granted_mac :
  captureAndAnalyzeContext ascii_toLowerCase macGranted idle
  = (Returned
       {| software := js "Adobe Premiere Pro";
          confidence := (4 # 5)%Q;
          panels := List.map js ["project panel"; "lumetri color"]%string;
          text_content := sampleText;
          screenshot_path := js "/tmp/screenshot.png";
          ui_elements :=
            List.map js ["timeline"; "panel"; "project panel"; "lumetri color"; "sequence"]%string |},
     {| ocrWorker := Some 1;
        history := [queryStatus; TakeScreenshot; CreateWorker;
                    LoadLanguage 1 (js "eng"); Initialize 1 (js "eng");
                    Recognize 1 (js "/tmp/screenshot.png")] |}).
Proof. by_running. Qed.

(** ** More about the classifier *)

Lemma js_gt_false (x y : Q) : js_gt x y = false -> (x <= y)%Q.
Proof.
  unfold js_gt. rewrite negb_false_iff. apply Qle_bool_iff.
Qed.

Section BestMatchShape.
Variable lowerText : jsstring.

(** The loop either keeps a start value that nothing beats, or returns the
    first of the signatures whose score is the highest. *)
Lemma bestMatch_split (catalogue : list Signature) (best : Detection.t) :
  (fold_left (considerSignature lowerText) catalogue best = best /\
   forall sw, In sw catalogue ->
              (score lowerText sw <= Detection.confidence best)%Q) \/
  (exists sw,
     firstHighest lowerText catalogue sw /\
     fold_left (considerSignature lowerText) catalogue best = wonBy lowerText sw /\
     (Detection.confidence best < score lowerText sw)%Q).
Proof.
  revert best. induction catalogue as [|x catalogue IH]; intros best; simpl.
  - left. split; [reflexivity | contradiction].
  - rewrite considerSignature_eq.
    destruct (js_gt (score lowerText x) (Detection.confidence best)) eqn:Hgt.
    + apply js_gt_spec in Hgt. right.
      destruct (IH (wonBy lowerText x))
        as [[Hkeep Hle] | [sw [[earlier [later [Hsplit [He Hl]]]] [Hwon Hlt]]]].
      * exists x. split; [|split; assumption].
        exists [], catalogue. split; [reflexivity|].
        split; [contradiction | exact Hle].
      * simpl in Hlt. exists sw. split; [|split].
        -- exists (x :: earlier), later. rewrite Hsplit.
           split; [reflexivity|]. split; [|exact Hl].
           intros y [<- | Hy]; [exact Hlt | now apply He].
        -- exact Hwon.
        -- now apply Qlt_trans with (score lowerText x).
    + apply js_gt_false in Hgt.
      destruct (IH best)
        as [[Hkeep Hle] | [sw [[earlier [later [Hsplit [He Hl]]]] [Hwon Hlt]]]].
      * left. split; [exact Hkeep|].
        intros y [<- | Hy]; [exact Hgt | now apply Hle].
      * right. exists sw. split; [|split; assumption].
        exists (x :: earlier), later. rewrite Hsplit.
        split; [reflexivity|]. split; [|exact Hl].
        intros y [<- | Hy]; [|now apply He].
        now apply Qle_lt_trans with (Detection.confidence best).
Qed.
End BestMatchShape.

Lemma firstHighest_In (lowerText : jsstring) (catalogue : list Signature)
    (sw : Signature) :
  firstHighest lowerText catalogue sw -> In sw catalogue.
Proof.
  intros [earlier [later [-> _]]]. apply in_or_app. right. now left.
Qed.

Lemma firstHighest_dominates (lowerText : jsstring) (catalogue : list Signature)
    (sw x : Signature) :
  firstHighest lowerText catalogue sw -> In x catalogue ->
  (score lowerText x <= score lowerText sw)%Q.
Proof.
  intros [earlier [later [-> [He Hl]]]] Hx.
  apply in_app_or in Hx as [Hx | [<- | Hx]].
  - now apply Qlt_le_weak, He.
  - apply Qle_refl.
  - now apply Hl.
Qed.

(** X1. The result of [detectCreativeSoftware] is "Unknown" with every score
    at 0, or it is the first signature of the catalogue among those with the
    highest score, and that score is above 0. *)
Theorem detection_is_unknown_or_first_highest
    (toLowerCase : jsstring -> jsstring) (text : jsstring) :
  (detectCreativeSoftware toLowerCase text = unknownMatch /\
   forall sw, In sw softwarePatterns -> (score (toLowerCase text) sw == 0)%Q) \/
  (exists sw,
     firstHighest (toLowerCase text) softwarePatterns sw /\
     (0 < score (toLowerCase text) sw)%Q /\
     detectCreativeSoftware toLowerCase text = wonBy (toLowerCase text) sw).
Proof.
  destruct (bestMatch_split (toLowerCase text) softwarePatterns unknownMatch)
    as [[Hkeep Hle] | [sw [Hfirst [Hwon Hlt]]]].
  - left. split; [exact Hkeep|]. intros sw Hin.
    apply Qle_antisym; [now apply Hle | apply score_bounds].
  - right. exists sw. auto.
Qed.

(** The confidence is at least the score of every signature. *)
Lemma confidence_dominates (toLowerCase : jsstring -> jsstring) (text : jsstring)
    (sw : Signature) :
  In sw softwarePatterns ->
  (score (toLowerCase text) sw
   <= Detection.confidence (detectCreativeSoftware toLowerCase text))%Q.
Proof.
  intros Hin.
  destruct (bestMatch_split (toLowerCase text) softwarePatterns unknownMatch)
    as [[Hkeep Hle] | [sw0 [Hfirst [Hwon Hlt]]]].
  - unfold detectCreativeSoftware. rewrite Hkeep. now apply Hle.
  - unfold detectCreativeSoftware. rewrite Hwon.
    now apply firstHighest_dominates with softwarePatterns.
Qed.

Lemma includes_mono (a b p : jsstring) :
  Substring a b -> includes a p = true -> includes b p = true.
Proof.
  intros Hab Hp. apply includes_spec. apply includes_spec in Hp.
  now apply Substring_trans with a.
Qed.

Lemma countMatches_mono (a b : jsstring) (pats : list jsstring) :
  (forall p, includes a p = true -> includes b p = true) ->
  countMatches a pats <= countMatches b pats.
Proof.
  intros Hab. rewrite !countMatches_filter.
  induction pats as [|p pats IH]; simpl; [lia|].
  destruct (includes a p) eqn:Ea.
  - rewrite (Hab p Ea). simpl. lia.
  - destruct (includes b p); simpl; lia.
Qed.

Lemma js_div_mono (a a' b : nat) : a <= a' -> (js_div a b <= js_div a' b)%Q.
Proof.
  intros H. rewrite !js_div_eq. unfold Qle. simpl.
  apply Z.mul_le_mono_nonneg_r; lia.
Qed.

Lemma extractPanels_In (toLowerCase : jsstring -> jsstring) (text e : jsstring) :
  In e (extractPanels toLowerCase text) <->
  In e panelPatterns /\ includes (toLowerCase text) e = true.
Proof.
  unfold extractPanels. rewrite collectIncluded_filter. apply filter_In.
Qed.

Lemma extractUIElements_In (toLowerCase : jsstring -> jsstring) (text e : jsstring) :
  In e (extractUIElements toLowerCase text) <->
  In e uiPatterns /\ includes (toLowerCase text) e = true.
Proof.
  unfold extractUIElements. rewrite collectIncluded_filter.
  destruct (spreadSet_spec (filter (includes (toLowerCase text)) uiPatterns))
    as [_ [_ Hin]].
  rewrite Hin. apply filter_In.
Qed.

Lemma confidence_is_bounded_below (toLowerCase : jsstring -> jsstring)
    (text : jsstring) :
  (0 <= Detection.confidence (detectCreativeSoftware toLowerCase text))%Q /\
  (Detection.confidence (detectCreativeSoftware toLowerCase text) <= 1)%Q.
Proof.
  destruct (detect_cases toLowerCase text) as [-> | [sw [_ [-> _]]]].
  - split; discriminate.
  - apply score_bounds.
Qed.

(** X2. A text whose lower-casing contains the lower-casing of another text
    gets at least the confidence of that text, and every panel and every
    element found in that text. *)
Theorem more_text_never_finds_less
    (toLowerCase : jsstring -> jsstring) (a b : jsstring) :
  Substring (toLowerCase a) (toLowerCase b) ->
  (Detection.confidence (detectCreativeSoftware toLowerCase a)
   <= Detection.confidence (detectCreativeSoftware toLowerCase b))%Q /\
  (forall e, In e (extractPanels toLowerCase a) -> In e (extractPanels toLowerCase b)) /\
  (forall e, In e (extractUIElements toLowerCase a) ->
             In e (extractUIElements toLowerCase b)).
Proof.
  intros Hab. split; [|split].
  - destruct (detect_cases toLowerCase a) as [-> | [sw [Hin [-> _]]]].
    + destruct (confidence_is_bounded_below toLowerCase b) as [H _]. exact H.
    + apply Qle_trans with (score (toLowerCase b) sw);
        [|now apply confidence_dominates].
      apply js_div_mono, countMatches_mono. intros p. now apply includes_mono.
  - intros e He.
    destruct (proj1 (extractPanels_In toLowerCase a e) He) as [H1 H2].
    apply (proj2 (extractPanels_In toLowerCase b e)).
    split; [exact H1 | exact (includes_mono _ _ _ Hab H2)].
  - intros e He.
    destruct (proj1 (extractUIElements_In toLowerCase a e) He) as [H1 H2].
    apply (proj2 (extractUIElements_In toLowerCase b e)).
    split; [exact H1 | exact (includes_mono _ _ _ Hab H2)].
Qed.

Lemma more_text_on_timeline :
  (Detection.confidence (detectCreativeSoftware ascii_toLowerCase (js "Timeline Panel"))
   <= Detection.confidence
        (detectCreativeSoftware ascii_toLowerCase (js "PREMIERE | timeline panel | Sequence 01")))%Q /\
  (forall e, In e (extractPanels ascii_toLowerCase (js "Timeline Panel")) ->
             In e (extractPanels ascii_toLowerCase (js "PREMIERE | timeline panel | Sequence 01"))) /\
  (forall e, In e (extractUIElements ascii_toLowerCase (js "Timeline Panel")) ->
             In e (extractUIElements ascii_toLowerCase (js "PREMIERE | timeline panel | Sequence 01"))).
Proof.
  apply (more_text_never_finds_less ascii_toLowerCase
           (js "Timeline Panel") (js "PREMIERE | timeline panel | Sequence 01")).
  includes_by_running.
Defined.

Lemma panel_entry_seen_by_ui (e : jsstring) :
  In e panelPatterns -> In e uiPatterns \/ includes e (js "panel") = true.
Proof.
  intros H. unfold panelPatterns in H. simpl In in H.
  repeat (destruct H as [<- | H]); try contradiction;
    first [ right; by_running | left; apply existsb_jsstring_eqb; by_running ].
Qed.

(** X3. Whenever [extractPanels] finds a panel, [extractUIElements] finds an
    element: every panel name is an element name or contains "panel", which
    is one. *)
Theorem a_panel_found_means_an_element_found
    (toLowerCase : jsstring -> jsstring) (text : jsstring) :
  extractPanels toLowerCase text <> [] ->
  extractUIElements toLowerCase text <> [].
Proof.
  intros Hpanels.
  assert (Hsome : exists e, In e (extractPanels toLowerCase text)).
  { destruct (extractPanels toLowerCase text) as [|e rest];
      [congruence | exists e; now left]. }
  destruct Hsome as [e He].
  destruct (proj1 (extractPanels_In toLowerCase text e) He) as [Hcat Hinc].
  assert (Hfound : exists x, In x (extractUIElements toLowerCase text)).
  { destruct (panel_entry_seen_by_ui e Hcat) as [Hui | Hpanel].
    - exists e. apply (proj2 (extractUIElements_In toLowerCase text e)).
      split; assumption.
    - exists (js "panel").
      apply (proj2 (extractUIElements_In toLowerCase text (js "panel"))). split.
      + apply existsb_jsstring_eqb. by_running.
      + apply includes_spec. apply Substring_trans with e.
        * apply (proj1 (includes_spec e (js "panel"))). exact Hpanel.
        * apply (proj1 (includes_spec (toLowerCase text) e)). exact Hinc. }
  destruct Hfound as [x Hx]. intros Hnil.
  destruct (extractUIElements toLowerCase text); [exact Hx | discriminate].
Qed.

(** "swatches panel" is no element name; "panel" is. *)
Lemma swatches_panel_gives_an_element :
  extractPanels ascii_toLowerCase (js "Swatches Panel") = [js "swatches panel"] /\
  extractUIElements ascii_toLowerCase (js "Swatches Panel") <> [].
Proof.
  split; [by_running|].
  apply (a_panel_found_means_an_element_found ascii_toLowerCase (js "Swatches Panel")).
  intros E. vm_compute in E. discriminate.
Defined.

(** ** More about the OCR worker and the pipeline *)

Lemma initializeOCR_steps (env : Environment) (st : State) :
  initializeOCR env st
  = match ocrWorker st with
    | Some _ => (Returned tt, st)
    | None =>
        match answer_createWorker env (history st) with
        | Thrown e => (Thrown e, record_call CreateWorker st)
        | Returned w =>
            match answer_loadLanguage env (history st ++ [CreateWorker]) w (js "eng") with
            | Thrown e =>
                (Thrown e,
                 {| ocrWorker := Some w;
                    history := history st ++ [CreateWorker; loadEnglish w] |})
            | Returned _ =>
                (answer_initialize env
                   (history st ++ [CreateWorker; loadEnglish w]) w (js "eng"),
                 {| ocrWorker := Some w;
                    history := history st
                               ++ [CreateWorker; loadEnglish w; initializeEnglish w] |})
            end
        end
    end.
Proof.
  unfold initializeOCR, bind, read_ocrWorker.
  destruct (ocrWorker st) as [w0|]; [reflexivity|].
  unfold createWorker, perform.
  destruct (answer_createWorker env (history st)) as [w|e]; [|reflexivity].
  unfold write_ocrWorker, loadLanguage, initialize, perform, record_call.
  cbn [history ocrWorker].
  destruct (answer_loadLanguage env (history st ++ [CreateWorker]) w (js "eng"));
    rewrite <- !app_assoc; reflexivity.
Qed.

(** What [initializeOCR] calls and what it leaves in the field. *)
Lemma initializeOCR_calls (env : Environment) (st : State)
    (r : outcome unit) (st' : State) :
  initializeOCR env st = (r, st') ->
  exists setup,
    history st' = history st ++ setup /\
    Forall ocr_setup_call setup /\
    (ocrWorker st <> None -> setup = [] /\ st' = st) /\
    (forall u, r = Returned u -> ocrWorker st' <> None).
Proof.
  rewrite initializeOCR_steps. intros Hrun.
  destruct (ocrWorker st) as [w0|] eqn:Hfield.
  - injection Hrun as <- <-. exists []. rewrite app_nil_r.
    repeat split; try constructor. intros u _. congruence.
  - destruct (answer_createWorker env (history st)) as [w|e].
    + destruct (answer_loadLanguage env (history st ++ [CreateWorker]) w (js "eng")).
      * injection Hrun as <- <-.
        exists [CreateWorker; loadEnglish w; initializeEnglish w].
        split; [reflexivity|]. split; [repeat constructor|].
        split; [congruence | discriminate].
      * injection Hrun as <- <-. exists [CreateWorker; loadEnglish w].
        split; [reflexivity|]. split; [repeat constructor|].
        split; [congruence | discriminate].
    + injection Hrun as <- <-. exists [CreateWorker].
      split; [reflexivity|]. split; [repeat constructor|].
      split; [congruence | discriminate].
Qed.

Lemma ocrWorker_recognize_steps (env : Environment) (image : jsstring) (st : State) :
  ocrWorker_recognize env image st
  = match ocrWorker st with
    | Some w => (answer_recognize env (history st) w image,
                 record_call (Recognize w image) st)
    | None => (Thrown (js "TypeError"), st)
    end.
Proof.
  unfold ocrWorker_recognize, bind, read_ocrWorker.
  destruct (ocrWorker st); reflexivity.
Qed.

Section PipelineCalls.
Variable toLowerCase : jsstring -> jsstring.
Variable env : Environment.

(** The calls of the part of a run that follows the permission gate. *)
Lemma captureAndAnalyze_calls (st1 : State) (r : outcome ContextData) (st' : State) :
  captureAndAnalyze toLowerCase env st1 = (r, st') ->
  exists setup recog,
    history st' = history st1 ++ TakeScreenshot :: setup ++ recog /\
    Forall ocr_setup_call setup /\
    (ocrWorker st1 <> None -> setup = []) /\
    (recog = [] \/
     exists w image,
       recog = [Recognize w image] /\
       answer_takeScreenshot env (history st1) = Returned image) /\
    (forall x, r = Returned x ->
       exists text image, x = analyze toLowerCase text image).
Proof.
  rewrite captureAndAnalyze_steps. intros Hrun.
  destruct (answer_takeScreenshot env (history st1)) as [image|e].
  - destruct (initializeOCR env (record_call TakeScreenshot st1))
      as [[u|e] st2] eqn:Hinit.
    + destruct (initializeOCR_calls env _ _ _ Hinit)
        as [setup [Hhist [Hsetup [Hkept Hfield]]]].
      cbn [history ocrWorker record_call] in Hhist, Hkept.
      rewrite ocrWorker_recognize_steps in Hrun.
      destruct (ocrWorker st2) as [w|] eqn:Hw;
        [|now elim (Hfield u eq_refl)].
      exists setup, [Recognize w image].
      assert (Hh : history (record_call (Recognize w image) st2)
                   = history st1 ++ TakeScreenshot :: setup ++ [Recognize w image]).
      { cbn [history record_call]. rewrite Hhist, <- !app_assoc. reflexivity. }
      destruct (answer_recognize env (history st2) w image) as [text|e];
        injection Hrun as <- <-.
      * split; [exact Hh|]. split; [exact Hsetup|].
        split; [intros H; now apply Hkept|].
        split; [right; now exists w, image|].
        intros x Hx. injection Hx as <-. now exists text, image.
      * split; [exact Hh|]. split; [exact Hsetup|].
        split; [intros H; now apply Hkept|].
        split; [right; now exists w, image | discriminate].
    + destruct (initializeOCR_calls env _ _ _ Hinit)
        as [setup [Hhist [Hsetup [Hkept _]]]].
      cbn [history ocrWorker record_call] in Hhist, Hkept.
      injection Hrun as <- <-. exists setup, [].
      split; [rewrite Hhist, app_nil_r, <- !app_assoc; reflexivity|].
      split; [exact Hsetup|].
      split; [intros H; now apply Hkept|].
      split; [now left | discriminate].
  - injection Hrun as <- <-. exists [], [].
    split; [reflexivity|]. split; [constructor|].
    split; [reflexivity|]. split; [now left | discriminate].
Qed.
End PipelineCalls.

Lemma name_not_permission_required (sw : Signature) :
  In sw softwarePatterns -> name sw <> js "Permission Required".
Proof.
  intros H E. apply jsstring_eqb_eq in E.
  each_signature H; vm_compute in E; discriminate.
Qed.

Lemma analyze_software (toLowerCase : jsstring -> jsstring)
    (text image : jsstring) :
  software (analyze toLowerCase text image) <> js "Permission Required".
Proof.
  unfold analyze. cbn [software].
  destruct (detect_cases toLowerCase text) as [-> | [sw [Hin [-> _]]]].
  - intros E. apply jsstring_eqb_eq in E. vm_compute in E. discriminate.
  - now apply name_not_permission_required.
Qed.

(** X4. A run of [captureAndAnalyzeContext] makes the calls of the permission
    helper and then either nothing more, or one screenshot, the set-up of the
    worker (nothing when the helper already holds a worker) and at most one
    recognition, which is asked for the screenshot taken in this run. *)
Theorem run_captures_once_and_recognizes_that_capture
    (toLowerCase : jsstring -> jsstring) (env : Environment) (st : State) :
  exists r st' gateCalls rest,
    captureAndAnalyzeContext toLowerCase env st = (Returned r, st') /\
    history st' = history st ++ gateCalls ++ rest /\
    Forall permission_call gateCalls /\
    (rest = [] \/
     exists setup recog,
       rest = TakeScreenshot :: setup ++ recog /\
       Forall ocr_setup_call setup /\
       (ocrWorker st <> None -> setup = []) /\
       (recog = [] \/
        exists w image,
          recog = [Recognize w image] /\
          answer_takeScreenshot env (history st ++ gateCalls) = Returned image)).
Proof.
  destruct (handle_calls env st) as [b [gateCalls [Hgate Hcalls]]].
  set (st1 := {| ocrWorker := ocrWorker st; history := history st ++ gateCalls |}) in *.
  unfold captureAndAnalyzeContext.
  destruct (negb b && isDarwin env) eqn:Hopen.
  - apply andb_true_iff in Hopen as [Hb Hdarwin].
    apply negb_true_iff in Hb. subst b.
    exists permissionRequired, st1, gateCalls, [].
    split; [now apply gate_closed|].
    split; [now rewrite app_nil_r|]. split; [exact Hcalls | now left].
  - rewrite (gate_open toLowerCase env _ st b st1 Hgate Hopen).
    destruct (captureAndAnalyze toLowerCase env st1) as [r st'] eqn:Hrun.
    destruct (captureAndAnalyze_calls toLowerCase env st1 r st' Hrun)
      as [setup [recog [Hhist [Hsetup [Hkept [Hrecog _]]]]]].
    cbn [history ocrWorker st1] in Hhist, Hkept, Hrecog.
    assert (Hshape :
      history st' = history st ++ gateCalls ++ TakeScreenshot :: setup ++ recog /\
      Forall permission_call gateCalls /\
      (TakeScreenshot :: setup ++ recog = [] \/
       exists setup0 recog0,
         TakeScreenshot :: setup ++ recog = TakeScreenshot :: setup0 ++ recog0 /\
         Forall ocr_setup_call setup0 /\
         (ocrWorker st <> None -> setup0 = []) /\
         (recog0 = [] \/
          exists w image,
            recog0 = [Recognize w image] /\
            answer_takeScreenshot env (history st ++ gateCalls) = Returned image))).
    { split; [now rewrite Hhist, <- app_assoc|]. split; [exact Hcalls|].
      right. exists setup, recog. auto. }
    destruct r as [r|e].
    + exists r, st', gateCalls, (TakeScreenshot :: setup ++ recog).
      split; [reflexivity | exact Hshape].
    + exists unknownContext, st', gateCalls, (TakeScreenshot :: setup ++ recog).
      split; [reflexivity | exact Hshape].
Qed.

(** X5. A run returns the software "Permission Required" only on macOS and
    only when the permission helper answered [false]; the run then ends
    where the helper ended. *)
Theorem permission_required_only_when_denied
    (toLowerCase : jsstring -> jsstring) (env : Environment)
    (st : State) (r : ContextData) (st' : State) :
  captureAndAnalyzeContext toLowerCase env st = (Returned r, st') ->
  software r = js "Permission Required" ->
  isDarwin env = true /\
  PermissionsHelper.handlePermissionForContextCapture env st = (Returned false, st') /\
  r = permissionRequired.
Proof.
  intros Hrun Hsoftware.
  destruct (handle_calls env st) as [b [gateCalls [Hgate _]]].
  set (st1 := {| ocrWorker := ocrWorker st; history := history st ++ gateCalls |}) in *.
  unfold captureAndAnalyzeContext in Hrun.
  destruct (negb b && isDarwin env) eqn:Hopen.
  - apply andb_true_iff in Hopen as [Hb Hdarwin].
    apply negb_true_iff in Hb. subst b.
    rewrite (gate_closed toLowerCase env _ st st1 Hgate Hdarwin) in Hrun.
    injection Hrun as <- <-. auto.
  - exfalso.
    rewrite (gate_open toLowerCase env _ st b st1 Hgate Hopen) in Hrun.
    destruct (captureAndAnalyze toLowerCase env st1) as [x st2] eqn:Hbody.
    destruct (captureAndAnalyze_calls toLowerCase env st1 x st2 Hbody)
      as [_ [_ [_ [_ [_ [_ Hresult]]]]]].
    destruct x as [x|e]; injection Hrun as <- _.
    + destruct (Hresult x eq_refl) as [text [image ->]].
      now apply (analyze_software toLowerCase text image).
    + apply jsstring_eqb_eq in Hsoftware. vm_compute in Hsoftware. discriminate.
Qed.

Lemma permission_required_on_denied_mac :
  isDarwin macDenied = true /\
  PermissionsHelper.handlePermissionForContextCapture macDenied idle
  = (Returned false,
     {| ocrWorker := None;
        history := [queryStatus; probeCapture; probeDelete; queryStatus] |}) /\
  permissionRequired = permissionRequired.
Proof.
  exact (permission_required_only_when_denied ascii_toLowerCase macDenied idle
           permissionRequired
           {| ocrWorker := None;
              history := [queryStatus; probeCapture; probeDelete; queryStatus] |}
           eq_refl eq_refl).
Defined.

(** X6. Off macOS a run asks nothing about permissions: its first call is
    the screenshot, and its result is the "Unknown" record or the analysis
    of a recognised text, never "Permission Required". *)
Theorem elsewhere_the_run_starts_with_the_screenshot
    (toLowerCase : jsstring -> jsstring) (env : Environment) (st : State) :
  isDarwin env = false ->
  exists r st' rest,
    captureAndAnalyzeContext toLowerCase env st = (Returned r, st') /\
    history st' = history st ++ TakeScreenshot :: rest /\
    Forall (fun c => ~ permission_call c) (TakeScreenshot :: rest) /\
    (r = unknownContext \/ exists text image, r = analyze toLowerCase text image) /\
    software r <> js "Permission Required".
Proof.
  intros Helse. unfold captureAndAnalyzeContext.
  assert (Hopen : gateOpen env true) by reflexivity.
  rewrite (gate_open toLowerCase env _ st true st (handle_elsewhere env st Helse) Hopen).
  destruct (captureAndAnalyze toLowerCase env st) as [x st'] eqn:Hbody.
  destruct (captureAndAnalyze_calls toLowerCase env st x st' Hbody)
    as [setup [recog [Hhist [Hsetup [_ [Hrecog Hresult]]]]]].
  assert (Hnone : Forall (fun c => ~ permission_call c) (TakeScreenshot :: setup ++ recog)).
  { constructor; [intros []|]. apply Forall_app. split.
    - eapply Forall_impl; [|exact Hsetup]. intros [] Hc; simpl in *; tauto.
    - destruct Hrecog as [-> | [w [image [-> _]]]]; repeat constructor.
      intros []. }
  destruct x as [x|e].
  - destruct (Hresult x eq_refl) as [text [image ->]].
    exists (analyze toLowerCase text image), st', (setup ++ recog).
    split; [reflexivity|]. split; [exact Hhist|]. split; [exact Hnone|].
    split; [right; now exists text, image | apply analyze_software].
  - exists unknownContext, st', (setup ++ recog).
    split; [reflexivity|]. split; [exact Hhist|]. split; [exact Hnone|].
    split; [now left|].
    intros E. apply jsstring_eqb_eq in E. vm_compute in E. discriminate.
Qed.

Lemma linux_run_starts_with_the_screenshot :
  exists r st' rest,
    captureAndAnalyzeContext ascii_toLowerCase linuxBox idle = (Returned r, st') /\
    history st' = history idle ++ TakeScreenshot :: rest /\
    Forall (fun c => ~ permission_call c) (TakeScreenshot :: rest) /\
    (r = unknownContext \/ exists text image, r = analyze ascii_toLowerCase text image) /\
    software r <> js "Permission Required".
Proof.
  exact (elsewhere_the_run_starts_with_the_screenshot ascii_toLowerCase linuxBox idle
           eq_refl).
Defined.

(** X7. Once [initializeOCR] has returned, the helper holds a worker, and
    for as long as it holds one [initializeOCR] returns at once: it makes no
    call, whatever the environment would answer. *)
Theorem initializeOCR_sets_up_once
    (env : Environment) (st : State) (u : unit) (st' : State) :
  initializeOCR env st = (Returned u, st') ->
  exists w,
    ocrWorker st' = Some w /\
    forall env' later,
      ocrWorker later = Some w ->
      initializeOCR env' later = (Returned tt, later).
Proof.
  intros Hrun.
  destruct (initializeOCR_calls env st _ _ Hrun) as [_ [_ [_ [_ Hfield]]]].
  destruct (ocrWorker st') as [w|] eqn:Hw; [|now elim (Hfield u eq_refl)].
  exists w. split; [reflexivity|].
  intros env' later Hlater. rewrite initializeOCR_steps, Hlater. reflexivity.
Qed.

Lemma initializeOCR_sets_up_once_on_mac :
  exists w,
    Some 1 = Some w /\
    forall env' later,
      ocrWorker later = Some w ->
      initializeOCR env' later = (Returned tt, later).
Proof.
  exact (initializeOCR_sets_up_once macGranted idle tt
           {| ocrWorker := Some 1;
              history := [CreateWorker; loadEnglish 1; initializeEnglish 1] |}
           eq_refl).
Defined.

(** X8. A set-up that fails after the worker was created is not tried again:
    the worker stays in the field, and the next [initializeOCR] returns at
    once without loading or initialising the language.  When it is the
    creation of the worker that fails, the field stays empty. *)
Theorem failed_setup_is_not_retried
    (env : Environment) (st : State) (e : error) (st' : State) :
  ocrWorker st = None ->
  initializeOCR env st = (Thrown e, st') ->
  (forall w,
     answer_createWorker env (history st) = Returned w ->
     ocrWorker st' = Some w /\
     forall env', initializeOCR env' st' = (Returned tt, st')) /\
  (forall e0,
     answer_createWorker env (history st) = Thrown e0 ->
     ocrWorker st' = None /\ history st' = history st ++ [CreateWorker]).
Proof.
  intros Hnone. rewrite initializeOCR_steps, Hnone. intros Hrun. split.
  - intros w Hw. rewrite Hw in Hrun.
    destruct (answer_loadLanguage env (history st ++ [CreateWorker]) w (js "eng"));
      injection Hrun as _ <-;
      (split; [reflexivity | intros env'; now rewrite initializeOCR_steps]).
  - intros e0 He0. rewrite He0 in Hrun. injection Hrun as _ <-.
    split; [exact Hnone | reflexivity].
Qed.

(** The language cannot be loaded: worker 1 stays, and the next set-up
    reports success. *)
Lemma failed_load_is_not_retried :
  (forall w,
     answer_createWorker macLanguageLoadFails (history idle) = Returned w ->
     Some 1 = Some w /\
     forall env',
       initializeOCR env'
         {| ocrWorker := Some 1; history := [CreateWorker; loadEnglish 1] |}
       = (Returned tt,
          {| ocrWorker := Some 1; history := [CreateWorker; loadEnglish 1] |})) /\
  (forall e0,
     answer_createWorker macLanguageLoadFails (history idle) = Thrown e0 ->
     Some 1 = None /\ [CreateWorker; loadEnglish 1] = [] ++ [CreateWorker]).
Proof.
  exact (failed_setup_is_not_retried macLanguageLoadFails idle (js "network error")
           {| ocrWorker := Some 1; history := [CreateWorker; loadEnglish 1] |}
           eq_refl eq_refl).
Defined.

(** X9. [checkScreenCapturePermission] never throws.  Off macOS it answers
    [true] and asks nothing; on macOS it asks the status once and answers
    [true] exactly when the answer is the string 'granted', so a query that
    throws counts as not granted. *)
Theorem check_fails_closed (env : Environment) (st : State) :
  exists granted st',
    PermissionsHelper.checkScreenCapturePermission env st = (Returned granted, st') /\
    (isDarwin env = false -> granted = true /\ st' = st) /\
    (isDarwin env = true ->
       st' = record_call queryStatus st /\
       (granted = true <->
        answer_getMediaAccessStatus env (history st) (js "screen")
        = Returned (js "granted"))).
Proof.
  destruct (isDarwin env) eqn:H.
  - exists (statusGranted env (history st)), (record_call queryStatus st).
    split; [now apply check_darwin|]. split; [discriminate|].
    intros _. split; [reflexivity|]. unfold statusGranted.
    destruct (answer_getMediaAccessStatus env (history st) (js "screen")) as [s|e].
    + rewrite jsstring_eqb_eq. split; [now intros -> | congruence].
    + split; discriminate.
  - exists true, st. split; [now apply check_elsewhere|].
    split; [auto | discriminate].
Qed.

(** X10. [handlePermissionForContextCapture] never throws and leaves the
    worker of the context helper alone.  Its calls and its answer are fixed
    by the platform and by what the status queries and the probe answer:
    none and [true] off macOS; on macOS one status query and [true] when
    that says granted; otherwise one probe capture more and [false] when
    the probe throws; and when the probe goes through, the deletion of the
    probe file and a second status query, whose verdict is the answer. *)
Theorem prompt_makes_at_most_one_probe (env : Environment) (st : State) :
  exists hasPermission calls,
    PermissionsHelper.handlePermissionForContextCapture env st
    = (Returned hasPermission,
       {| ocrWorker := ocrWorker st; history := history st ++ calls |}) /\
    ((isDarwin env = false /\ calls = [] /\ hasPermission = true) \/
     (isDarwin env = true /\
      statusGranted env (history st) = true /\
      calls = [queryStatus] /\ hasPermission = true) \/
     (isDarwin env = true /\
      statusGranted env (history st) = false /\
      (exists e,
         answer_screenshot env (history st ++ [queryStatus]) permissionTestFile
         = Thrown e) /\
      calls = [queryStatus; probeCapture] /\ hasPermission = false) \/
     (isDarwin env = true /\
      statusGranted env (history st) = false /\
      (exists u,
         answer_screenshot env (history st ++ [queryStatus]) permissionTestFile
         = Returned u) /\
      calls = [queryStatus; probeCapture; probeDelete; queryStatus] /\
      hasPermission
      = statusGranted env (history st ++ [queryStatus; probeCapture; probeDelete]))).
Proof.
  destruct (isDarwin env) eqn:H.
  - rewrite (handle_darwin env st H).
    destruct (statusGranted env (history st)) eqn:Hfirst.
    + exists true, [queryStatus]. split; [reflexivity|]. right. left. auto.
    + destruct (answer_screenshot env (history st ++ [queryStatus]) permissionTestFile)
        as [u|e] eqn:Hprobe.
      * exists (statusGranted env
                  (history st ++ [queryStatus; probeCapture; probeDelete])),
               [queryStatus; probeCapture; probeDelete; queryStatus].
        split.
        -- unfold record_call. cbn [history ocrWorker].
           rewrite <- !app_assoc. reflexivity.
        -- right. right. right.
           split; [reflexivity|]. split; [reflexivity|].
           split; [now exists u|]. split; reflexivity.
      * exists false, [queryStatus; probeCapture].
        split.
        -- unfold record_call. cbn [history ocrWorker].
           rewrite <- !app_assoc. reflexivity.
        -- right. right. left.
           split; [reflexivity|]. split; [reflexivity|].
           split; [now exists e|]. split; reflexivity.
  - rewrite (handle_elsewhere env st H). exists true, [].
    split; [|left; auto]. rewrite app_nil_r. now destruct st.
Qed.

(** X11. With the second copy of the permission helper, a denied permission
    on macOS also ends the run with the "Permission Required" record, after
    the one status query and nothing else. *)
Theorem second_copy_denied_permission_skips_capture
    (toLowerCase : jsstring -> jsstring) (env : Environment) (st st1 : State) :
  isDarwin env = true ->
  PermissionsHelperSecondCopy.handlePermissionForContextCapture env st
    = (Returned false, st1) ->
  captureAndAnalyzeContextWith toLowerCase env
    (PermissionsHelperSecondCopy.handlePermissionForContextCapture env) st
    = (Returned permissionRequired, st1) /\
  history st1 = history st ++ [queryStatus].
Proof.
  intros H Hgate. split; [now apply gate_closed|].
  rewrite second_copy_does_not_prompt, (check_darwin env st H) in Hgate.
  now injection Hgate as _ <-.
Qed.

Lemma second_copy_denied_on_mac :
  captureAndAnalyzeContextWith ascii_toLowerCase macDenied
    (PermissionsHelperSecondCopy.handlePermissionForContextCapture macDenied) idle
    = (Returned permissionRequired,
       {| ocrWorker := None; history := [queryStatus] |}) /\
  [queryStatus] = [] ++ [queryStatus].
Proof.
  exact (second_copy_denied_permission_skips_capture ascii_toLowerCase macDenied idle
           {| ocrWorker := None; history := [queryStatus] |} eq_refl eq_refl).
Defined.

(** ** Releasing the worker *)

Lemma cleanup_steps (answer_terminate : list call -> worker -> outcome unit)
    (st : State) :
  cleanup answer_terminate st
  = match ocrWorker st with
    | None => (Returned tt, st)
    | Some w =>
        match answer_terminate (history st) w with
        | Returned _ => (Returned tt, {| ocrWorker := None; history := history st |})
        | Thrown e => (Thrown e, st)
        end
    end.
Proof.
  unfold cleanup, bind, read_ocrWorker, terminate, write_ocrWorker.
  destruct (ocrWorker st) as [w|]; [|reflexivity].
  destruct (answer_terminate (history st) w); reflexivity.
Qed.

Lemma cleanup_returned_field
    (answer_terminate : list call -> worker -> outcome unit)
    (st : State) (u : unit) (st' : State) :
  cleanup answer_terminate st = (Returned u, st') ->
  ocrWorker st' = None /\ history st' = history st.
Proof.
  rewrite cleanup_steps. intros Hrun.
  destruct (ocrWorker st) as [w|] eqn:Hw.
  - destruct (answer_terminate (history st) w); [|discriminate].
    injection Hrun as _ <-. split; reflexivity.
  - injection Hrun as _ <-. split; [exact Hw | reflexivity].
Qed.

(** X12. After a [cleanup] that returned, the helper holds no worker and
    the recorded calls are the same; a further [cleanup] terminates nothing
    and changes nothing.  This covers the [cleanup] of a helper that never
    held a worker. *)
Theorem cleanup_releases_the_worker_once
    (answer_terminate : list call -> worker -> outcome unit)
    (st : State) (u : unit) (st' : State) :
  cleanup answer_terminate st = (Returned u, st') ->
  ocrWorker st' = None /\
  history st' = history st /\
  (ocrWorker st = None -> st' = st) /\
  forall answer_terminate', cleanup answer_terminate' st' = (Returned tt, st').
Proof.
  rewrite cleanup_steps. intros Hrun.
  assert (Hfield : ocrWorker st' = None /\ history st' = history st /\
                   (ocrWorker st = None -> st' = st)).
  { destruct (ocrWorker st) as [w|] eqn:Hw.
    - destruct (answer_terminate (history st) w); [|discriminate].
      injection Hrun as _ <-. repeat split. discriminate.
    - injection Hrun as _ <-. auto. }
  destruct Hfield as [Hnone [Hhist Hsame]].
  repeat split; auto.
  intros answer'. now rewrite cleanup_steps, Hnone.
Qed.

Lemma cleanup_after_one_run :
  ocrWorker {| ocrWorker := None; history := history afterOneRun |} = None /\
  history {| ocrWorker := None; history := history afterOneRun |} = history afterOneRun /\
  (ocrWorker afterOneRun = None ->
   {| ocrWorker := None; history := history afterOneRun |} = afterOneRun) /\
  forall answer_terminate',
    cleanup answer_terminate' {| ocrWorker := None; history := history afterOneRun |}
    = (Returned tt, {| ocrWorker := None; history := history afterOneRun |}).
Proof.
  exact (cleanup_releases_the_worker_once terminateWorks afterOneRun tt
           {| ocrWorker := None; history := history afterOneRun |} eq_refl).
Defined.

(** X13. A [cleanup] throws only what [terminate] threw, and then the
    helper still holds the worker: the field is reset after the call, not
    before it. *)
Theorem failed_cleanup_keeps_the_worker
    (answer_terminate : list call -> worker -> outcome unit)
    (st : State) (e : error) (st' : State) :
  cleanup answer_terminate st = (Thrown e, st') ->
  st' = st /\
  exists w, ocrWorker st = Some w /\ answer_terminate (history st) w = Thrown e.
Proof.
  rewrite cleanup_steps. intros Hrun.
  destruct (ocrWorker st) as [w|]; [|discriminate].
  destruct (answer_terminate (history st) w) as [u|e0] eqn:Hanswer; [discriminate|].
  injection Hrun as <- <-. split; [reflexivity|]. now exists w.
Qed.

Lemma failed_cleanup_after_one_run :
  afterOneRun = afterOneRun /\
  exists w,
    ocrWorker afterOneRun = Some w /\
    terminateFails (history afterOneRun) w = Thrown (js "worker is gone").
Proof.
  exact (failed_cleanup_keeps_the_worker terminateFails afterOneRun
           (js "worker is gone") afterOneRun eq_refl).
Defined.

(** X14. After a [cleanup] that returned, the next [initializeOCR] builds a
    worker again: its first call is [createWorker], and when the set-up goes
    through the helper holds the worker that call returned. *)
Theorem cleanup_then_setup_builds_a_new_worker
    (answer_terminate : list call -> worker -> outcome unit) (env : Environment)
    (st : State) (u : unit) (st1 : State) :
  cleanup answer_terminate st = (Returned u, st1) ->
  exists r st2 rest,
    initializeOCR env st1 = (r, st2) /\
    history st2 = history st ++ CreateWorker :: rest /\
    forall u', r = Returned u' ->
      exists w, answer_createWorker env (history st) = Returned w /\
                ocrWorker st2 = Some w.
Proof.
  intros Hclean.
  destruct (cleanup_returned_field answer_terminate st u st1 Hclean)
    as [Hnone Hhist].
  rewrite initializeOCR_steps, Hnone, Hhist.
  destruct (answer_createWorker env (history st)) as [w|e].
  - destruct (answer_loadLanguage env (history st ++ [CreateWorker]) w (js "eng")).
    + eexists _, _, [loadEnglish w; initializeEnglish w].
      split; [reflexivity|]. split; [reflexivity|].
      intros u' _. now exists w.
    + eexists _, _, [loadEnglish w].
      split; [reflexivity|]. split; [reflexivity | discriminate].
  - exists (Thrown e), (record_call CreateWorker st1), [].
    split; [reflexivity|].
    split; [cbn [history record_call]; now rewrite Hhist | discriminate].
Qed.

(** The worker of the first run is released and the next set-up on
    [macGranted] builds worker 1 again. *)
Lemma setup_after_cleanup_on_mac :
  exists r st2 rest,
    initializeOCR macGranted {| ocrWorker := None; history := history afterOneRun |}
    = (r, st2) /\
    history st2 = history afterOneRun ++ CreateWorker :: rest /\
    forall u', r = Returned u' ->
      exists w, answer_createWorker macGranted (history afterOneRun) = Returned w /\
                ocrWorker st2 = Some w.
Proof.
  exact (cleanup_then_setup_builds_a_new_worker terminateWorks macGranted afterOneRun tt
           {| ocrWorker := None; history := history afterOneRun |} eq_refl).
Defined.

(** ** The caller and the settings link *)

(** X15. The handler of "capture-context" never throws: it returns the
    record that [captureAndAnalyzeContext] returns, which is well formed. *)
Theorem capture_context_handler_never_rejects
    (toLowerCase : jsstring -> jsstring) (env : Environment) (st : State) :
  exists r st',
    captureContextHandler toLowerCase env st = (Returned r, st') /\
    captureAndAnalyzeContext toLowerCase env st = (Returned r, st') /\
    wellFormed r.
Proof.
  destruct (run_returns toLowerCase env
              (PermissionsHelper.handlePermissionForContextCapture env) st)
    as [r [st' [Hrun Hr]]].
  exists r, st'. unfold captureContextHandler, try_catch, captureAndAnalyzeContext.
  rewrite Hrun. split; [reflexivity|]. split; [reflexivity|].
  destruct Hr as [-> | [-> | [text [image ->]]]].
  - apply permissionRequired_wellFormed.
  - apply unknownContext_wellFormed.
  - apply analyze_wellFormed.
Qed.

(** X16. [openScreenRecordingSettings] opens the general security settings
    only when the screen-capture link was refused, and it throws exactly
    when both links are refused: what it throws is the error of the second
    one. *)
Theorem settings_throw_only_when_both_links_fail
    (answer_openExternal : list call -> jsstring -> outcome unit) (st : State) :
  (forall u,
     answer_openExternal (history st) screenCaptureSettings = Returned u ->
     openScreenRecordingSettings answer_openExternal st = (Returned u, st)) /\
  (forall e,
     openScreenRecordingSettings answer_openExternal st = (Thrown e, st) <->
     (exists e1, answer_openExternal (history st) screenCaptureSettings = Thrown e1) /\
     answer_openExternal (history st) securitySettings = Thrown e) /\
  snd (openScreenRecordingSettings answer_openExternal st) = st.
Proof.
  unfold openScreenRecordingSettings, try_catch, openExternal.
  destruct (answer_openExternal (history st) screenCaptureSettings) as [u1|e1].
  - split; [intros u Hu; now injection Hu as ->|].
    split; [|reflexivity].
    intros e. split; [discriminate | intros [[e1 He1] _]; discriminate].
  - split; [discriminate|]. split; [|reflexivity].
    intros e. split.
    + intros H. injection H as H. split; [now exists e1 | exact H].
    + intros [_ H]. now rewrite H.
Qed.

Lemma settings_throw_when_nothing_opens :
  openScreenRecordingSettings nothingOpens idle
  = (Thrown (js "no handler for " ++ securitySettings), idle).
Proof.
  apply (proj1 (proj2 (settings_throw_only_when_both_links_fail nothingOpens idle))).
  split; [now exists (js "no handler for " ++ screenCaptureSettings) | reflexivity].
Defined.

(** ** Keywords and results *)

Lemma countMatches_positive (lowerText : jsstring) (pats : list jsstring) :
  0 < countMatches lowerText pats <->
  exists p, In p pats /\ includes lowerText p = true.
Proof.
  rewrite countMatches_filter. split.
  - destruct (filter (includes lowerText) pats) as [|p rest] eqn:E; simpl; [lia|].
    intros _. exists p. apply filter_In. rewrite E. now left.
  - intros [p Hp]. apply filter_In in Hp.
    destruct (filter (includes lowerText) pats); [contradiction | simpl; lia].
Qed.

Lemma patterns_at_most_six (sw : Signature) :
  In sw softwarePatterns -> length (patterns sw) <= 6.
Proof. intros H. each_signature H; simpl; lia. Qed.

(** X17. A result that names a signature of the catalogue is backed by the
    text: at least one keyword pattern of that signature occurs in the
    lower-cased text. *)
Theorem named_software_has_a_keyword_in_the_text
    (toLowerCase : jsstring -> jsstring) (text : jsstring) (sw : Signature) :
  In sw softwarePatterns ->
  Detection.software (detectCreativeSoftware toLowerCase text) = name sw ->
  exists p, In p (patterns sw) /\ Substring p (toLowerCase text).
Proof.
  intros Hin Hname.
  destruct (detect_cases toLowerCase text) as [E | [sw0 [Hin0 [E Hpos]]]];
    rewrite E in Hname; simpl in Hname.
  - symmetry in Hname. now apply name_not_unknown in Hname.
  - apply (names_distinct _ _ Hin0 Hin) in Hname. subst sw0.
    assert (Hcount : 0 < countMatches (toLowerCase text) (patterns sw)).
    { destruct (countMatches (toLowerCase text) (patterns sw)) eqn:Ec; [|lia].
      unfold score in Hpos. rewrite Ec, js_div_zero in Hpos.
      now apply Qlt_irrefl in Hpos. }
    apply countMatches_positive in Hcount as [p [Hp Hinc]].
    exists p. split; [exact Hp | now apply includes_spec].
Qed.

Lemma photoshop_has_a_keyword_in_the_text :
  exists p, In p (patterns photoshop) /\
            Substring p (ascii_toLowerCase (js "PHOTOSHOP Layers")).
Proof.
  apply (named_software_has_a_keyword_in_the_text ascii_toLowerCase
           (js "PHOTOSHOP Layers") photoshop).
  - right. right. now left.
  - by_running.
Defined.

(** X18. As soon as one keyword pattern of one signature occurs in the
    lower-cased text, the result is not "Unknown" and its confidence is at
    least 1/6, the score of one keyword out of six. *)
Theorem one_keyword_is_enough
    (toLowerCase : jsstring -> jsstring) (text : jsstring)
    (sw : Signature) (p : jsstring) :
  In sw softwarePatterns ->
  In p (patterns sw) ->
  Substring p (toLowerCase text) ->
  Detection.software (detectCreativeSoftware toLowerCase text) <> js "Unknown" /\
  (1 # 6 <= Detection.confidence (detectCreativeSoftware toLowerCase text))%Q.
Proof.
  intros Hin Hp Hsub.
  assert (Hconf : (1 # 6 <= Detection.confidence
                             (detectCreativeSoftware toLowerCase text))%Q).
  { apply Qle_trans with (score (toLowerCase text) sw);
      [|now apply confidence_dominates].
    assert (Hcount : 0 < countMatches (toLowerCase text) (patterns sw)).
    { apply countMatches_positive. exists p. split; [exact Hp|].
      now apply includes_spec. }
    apply Qle_trans with (js_div 1 (length (patterns sw)));
      [|apply js_div_mono; lia].
    rewrite js_div_eq. unfold Qle. simpl.
    rewrite Zpos_of_nat by now apply patterns_nonempty.
    apply patterns_at_most_six in Hin. lia. }
  split; [|exact Hconf].
  intros Hunknown.
  destruct (detect_cases toLowerCase text) as [E | [sw0 [Hin0 [E _]]]];
    rewrite E in Hunknown, Hconf; simpl in Hunknown, Hconf.
  - now apply (Qle_not_lt _ _ Hconf).
  - now apply name_not_unknown in Hunknown.
Qed.

Lemma one_keyword_in_color_wheels :
  Detection.software (detectCreativeSoftware ascii_toLowerCase (js "Color Wheels"))
    <> js "Unknown" /\
  (1 # 6 <= Detection.confidence
              (detectCreativeSoftware ascii_toLowerCase (js "Color Wheels")))%Q.
Proof.
  apply (one_keyword_is_enough ascii_toLowerCase (js "Color Wheels")
           daVinciResolve (js "color")).
  - right. now left.
  - right. right. now left.
  - includes_by_running.
Defined.

(** X19. On a run in which the gate is open and the screenshot, the set-up
    and the recognition succeed, the record holds what the three classifier
    methods return on the recognised text, beside the path of the
    screenshot. *)
Theorem successful_run_classifies_the_recognized_text
    (toLowerCase : jsstring -> jsstring) (env : Environment) (st : State)
    (hasPermission : bool) (st1 : State)
    (screenshotPath : jsstring) (u : unit) (st2 : State)
    (text : jsstring) (st3 : State) :
  PermissionsHelper.handlePermissionForContextCapture env st
    = (Returned hasPermission, st1) ->
  gateOpen env hasPermission ->
  answer_takeScreenshot env (history st1) = Returned screenshotPath ->
  initializeOCR env (record_call TakeScreenshot st1) = (Returned u, st2) ->
  ocrWorker_recognize env screenshotPath st2 = (Returned text, st3) ->
  exists r,
    captureAndAnalyzeContext toLowerCase env st = (Returned r, st3) /\
    software r = Detection.software (detectCreativeSoftware toLowerCase text) /\
    confidence r = Detection.confidence (detectCreativeSoftware toLowerCase text) /\
    panels r = extractPanels toLowerCase text /\
    ui_elements r = extractUIElements toLowerCase text /\
    (software r = js "Unknown" <-> (confidence r == 0)%Q).
Proof.
  intros Hgate Hopen Hshot Hinit Hrec.
  exists (analyze toLowerCase text screenshotPath).
  unfold captureAndAnalyzeContext.
  rewrite (gate_open toLowerCase env _ st hasPermission st1 Hgate Hopen).
  rewrite captureAndAnalyze_steps, Hshot, Hinit, Hrec.
  cbn [analyze software confidence panels ui_elements].
  repeat (split; [reflexivity|]).
  destruct (detect_cases toLowerCase text) as [-> | [sw [Hin [-> Hpos]]]]; simpl.
  - split; reflexivity.
  - split; intros H.
    + now apply name_not_unknown in H.
    + rewrite H in Hpos. now apply Qlt_irrefl in Hpos.
Qed.

Lemma successful_run_on_granted_mac :
  exists r,
    captureAndAnalyzeContext ascii_toLowerCase macGranted idle
    = (Returned r, afterOneRun) /\
    software r = Detection.software (detectCreativeSoftware ascii_toLowerCase sampleText) /\
    confidence r = Detection.confidence (detectCreativeSoftware ascii_toLowerCase sampleText) /\
    panels r = extractPanels ascii_toLowerCase sampleText /\
    ui_elements r = extractUIElements ascii_toLowerCase sampleText /\
    (software r = js "Unknown" <-> (confidence r == 0)%Q).
Proof.
  exact (successful_run_classifies_the_recognized_text ascii_toLowerCase macGranted idle
           true (record_call queryStatus idle)
           (js "/tmp/screenshot.png") tt
           {| ocrWorker := Some 1;
              history := [queryStatus; TakeScreenshot; CreateWorker;
                          loadEnglish 1; initializeEnglish 1] |}
           sampleText afterOneRun
           eq_refl eq_refl eq_refl eq_refl eq_refl).
Defined.
